(** * Verification of the python-pptx demonstration scripts

    The development embeds the two scripts [python_pptx_demo.py] and
    [superstore_example.py]:

    - [Num]     : the numbers held in dataframe cells;
    - [Frame]   : the summary tables derived with pandas (totals row,
                  period-over-period growth, mix percentages);
    - [Align]   : the string-to-enum alignment helpers;
    - [Spark]   : the colouring loop of [sparkbar];
    - [Border]  : [_cell_border] on the XML children of a table cell;
    - [Script]  : the top-level control flow of both scripts in an
                  exception monad (slides, handlers, the saved file);
    - [Bounds]  : shapes of cells and frames;
    - [Deck]    : slides and keys of the superstore loop;
    - [Table]   : the geometry of a table and the charts laid over the
                  trend table;
    - [PlotArea]: the layout that [_plot_area_only] gives a sparkline;
    - [Fill]    : [_shape_fill] with its colour dictionary;
    - [Text]    : [_paragraphs] on the paragraphs and runs of a text frame;
    - [Column]  : the series colours of the stacked column chart;
    - [Period]  : calendar quarters and the bars of [prop_table];
    - [Growth]  : the colours of [qoq_table];
    - [Rules]   : the rows on which the table builders call
                  [_cell_border]. *)

From Stdlib Require Import QArith Qfield Lqa Ascii String.
From stdpp Require Import base strings list gmap.

(* ===================================================================== *)
(** ** Numbers in dataframe cells *)
(* ===================================================================== *)

Module Num.

(** A float64 cell.  Finite values are kept as exact rationals; the three
    IEEE special values that pandas produces on division by zero are kept
    apart.  Rounding, overflow and the sign of zero are not modelled. *)
Inductive num : Type :=
  | Fin (q : Q)
  | PInf
  | NInf
  | NaN.

Definition is_nan (x : num) : bool :=
  match x with NaN => true | _ => false end.


(** Equality of cells up to the representation of a rational. *)
Definition num_eq (x y : num) : Prop :=
  match x, y with
  | Fin a, Fin b => (a == b)%Q
  | PInf, PInf | NInf, NInf | NaN, NaN => True
  | _, _ => False
  end.

Definition neg (x : num) : num :=
  match x with
  | Fin a => Fin (- a)
  | PInf => NInf
  | NInf => PInf
  | NaN => NaN
  end.

Definition add (x y : num) : num :=
  match x, y with
  | NaN, _ | _, NaN => NaN
  | Fin a, Fin b => Fin (a + b)
  | PInf, NInf | NInf, PInf => NaN
  | PInf, _ | _, PInf => PInf
  | NInf, _ | _, NInf => NInf
  end.

Definition sub (x y : num) : num := add x (neg y).

(** Sign of an infinity multiplied or divided by the finite [b]. *)
Definition scale_inf (pos : bool) (b : Q) : num :=
  match (b ?= 0)%Q with
  | Eq => NaN
  | Gt => if pos then PInf else NInf
  | Lt => if pos then NInf else PInf
  end.

Definition mul (x y : num) : num :=
  match x, y with
  | NaN, _ | _, NaN => NaN
  | Fin a, Fin b => Fin (a * b)
  | PInf, Fin b | Fin b, PInf => scale_inf true b
  | NInf, Fin b | Fin b, NInf => scale_inf false b
  | PInf, PInf | NInf, NInf => PInf
  | PInf, NInf | NInf, PInf => NInf
  end.

(** IEEE division: [x / 0] is an infinity with the sign of [x], and
    [0 / 0] is NaN. *)
Definition div (x y : num) : num :=
  match x, y with
  | NaN, _ | _, NaN => NaN
  | Fin a, Fin b =>
      if Qeq_bool b 0 then
        match (a ?= 0)%Q with
        | Eq => NaN
        | Gt => PInf
        | Lt => NInf
        end
      else Fin (a / b)
  | Fin _, (PInf | NInf) => Fin 0
  | PInf, Fin b => if Qle_bool 0 b then PInf else NInf
  | NInf, Fin b => if Qle_bool 0 b then NInf else PInf
  | (PInf | NInf), (PInf | NInf) => NaN
  end.

(** Python's [x < y] on two floats: false as soon as one side is NaN. *)
Definition ltb (x y : num) : bool :=
  match x, y with
  | NaN, _ | _, NaN => false
  | Fin a, Fin b => match (a ?= b)%Q with Lt => true | _ => false end
  | NInf, (Fin _ | PInf) => true
  | Fin _, PInf => true
  | _, _ => false
  end.

(** [x > 0] and [x < 0]. *)
Definition gt0 (x : num) : bool := ltb (Fin 0) x.
Definition lt0 (x : num) : bool := ltb x (Fin 0).

Definition is_zero (x : num) : Prop :=
  match x with Fin a => (a == 0)%Q | _ => False end.



(** [Series.sum()] of a column without NaN: a left-to-right sum from 0. *)
Definition sum_list (l : list num) : num := fold_left add l (Fin 0).

(** The exact sum of finite values. *)
Definition qsum (qs : list Q) : Q := fold_left Qplus qs 0%Q.

(** [Series.sum()] with pandas' default [skipna=True]. *)
Definition sum_skipna (l : list num) : num :=
  sum_list (filter (fun x => is_nan x = false) l).

(** [fillna(v)] and [replace([np.inf], v)] on one cell.  [np.inf] is the
    positive infinity only. *)
Definition fillna (v : num) (x : num) : num :=
  match x with NaN => v | _ => x end.

Definition replace_inf (v : num) (x : num) : num :=
  match x with PInf => v | _ => x end.

End Num.

(* ===================================================================== *)
(** ** Summary tables derived with pandas *)
(* ===================================================================== *)

Module Frame.
Import Num.

(** A pivoted dataframe after [reset_index]: column 0 holds the row labels
    (the pivot column, of dtype object) and the remaining columns are the
    float64 period columns, left to right.  [columns] lists the numeric
    columns only, so numeric column [j] sits at position [S j] of
    [df.columns]. *)
Record DataFrame : Type := mkFrame {
  index_name : string;
  index : list string;
  columns : list (string * list num)
}.

Definition map_cells (f : num -> num) (df : DataFrame) : DataFrame :=
  {| index_name := index_name df;
     index := index df;
     columns := map (fun c => (c.1, map f c.2)) (columns df) |}.

(** [df.fillna(0)] and [df.replace([np.inf], 100)]. *)
Definition fillna0 : DataFrame -> DataFrame := map_cells (fillna (Fin 0)).
Definition replace_inf100 : DataFrame -> DataFrame :=
  map_cells (replace_inf (Fin 100)).

(** [[
totals = df.sum(numeric_only=True)
totals[pivot] = 'Total'
df.loc['Total'] = totals
df = df.reset_index(inplace=False, drop=True)
]] *)
Definition add_totals (df : DataFrame) : DataFrame :=
  {| index_name := index_name df;
     index := index df ++ ["Total"%string];
     columns := map (fun c => (c.1, c.2 ++ [sum_skipna c.2])) (columns df) |}.

(** [df.drop(df.columns[1:1+n], axis=1)]: the first [n] numeric columns go. *)
Definition drop_leading (n : nat) (df : DataFrame) : DataFrame :=
  {| index_name := index_name df;
     index := index df;
     columns := drop n (columns df) |}.

(** [((df[col] - df[prior]) / df[prior]) * 100] on two columns of one
    frame (same index, so the operation is row by row). *)
Definition growth (c p : num) : num := mul (div (sub c p) p) (Fin 100).

Definition pct_change (cur prior : list num) : list num :=
  zip_with growth cur prior.

(** The loop
    [[
for col in df.select_dtypes(include='number').columns.to_list()[lag:]:
    out[col] = ((df[col] - df[df.columns[df.columns.get_loc(col)-lag]])
                / df[df.columns[df.columns.get_loc(col)-lag]])*100
]]
    over numeric positions [j = lag, lag+1, ...]; [get_loc(col) - lag] is
    position [S j - lag] of [df.columns], that is numeric column
    [j - lag]. *)
Definition growth_columns (lag : nat) (cols : list (string * list num))
  : list (string * list num) :=
  omap (fun j =>
          cur ← cols !! j;
          prior ← cols !! (j - lag);
          Some (cur.1, pct_change cur.2 prior.2))
       (seq lag (length cols - lag)).

(** [out = df.drop(df.columns[1:1+lag], axis=1).copy()] followed by the
    loop: every numeric column left in [out] is overwritten. *)
Definition growth_table (lag : nat) (df : DataFrame) : DataFrame :=
  {| index_name := index_name df;
     index := index df;
     columns := growth_columns lag (columns df) |}.

(** Python's [s[-2:]] and [s.endswith(suf)]. *)
Definition last2 (s : string) : string :=
  String.substring (String.length s - 2) 2 s.

Definition endswith (suf s : string) : bool :=
  (String.length suf <=? String.length s) &&
  String.eqb
    (String.substring (String.length s - String.length suf)
       (String.length suf) s) suf.

(** [col = (col / col.iloc[-1]) * 100]; [iloc[-1]] raises on an empty
    column. *)
Definition mix_column (c : list num) : option (list num) :=
  t ← last c;
  Some (map (fun x => mul (div x t) (Fin 100)) c).

(** [[
mix = df[[pivot] + list(df.columns[df.columns.str.endswith(df.columns[-1][-2:])])].copy()
for col in mix.select_dtypes(include='number').columns.to_list():
    mix[col] = (mix[col]/mix[col].iloc[-1])*100
mix = mix.drop(mix.columns[1], axis=1)
]]
    [mix.columns[1]] raises when no period column was selected. *)
Definition same_period (cols : list (string * list num))
  : list (string * list num) :=
  match last cols with
  | Some lc => filter (fun c => endswith (last2 lc.1) c.1 = true) cols
  | None => []
  end.

Definition mix_table (df : DataFrame) : option DataFrame :=
  cols ← mapM (fun c => m ← mix_column c.2; Some (c.1, m))
              (same_period (columns df));
  match cols with
  | [] => None
  | _ :: kept =>
      Some {| index_name := index_name df;
              index := index df;
              columns := kept |}
  end.

(** *** The demo script *)

(** [data]: four regions with eleven years each; [sales k] is draw [k] of
    [np.random.uniform(low=10000, high=30000, size=44)]. *)
Definition years : list string :=
  ["2015"; "2016"; "2017"; "2018"; "2019"; "2020"; "2021"; "2022"; "2023";
   "2024"; "2025"]%string.




(** *** The superstore script, for a pivot slide

    [pv] is the quarterly pivot
    [df_hc[[pivot,'Calendar_Quarter','Sales']].groupby(...).sum()
     .reset_index().pivot(...).reset_index()]. *)

(** [df_hc] after the totals row is appended, with all quarters. *)
Definition df_hc_all (pv : DataFrame) : DataFrame :=
  add_totals (fillna0 pv).

(** [df_hc] as rendered: [df_hc.drop(df_hc.columns[1:5], axis=1)]. *)
Definition df_hc (pv : DataFrame) : DataFrame :=
  drop_leading 4 (df_hc_all pv).

(** [df_hc_qoq] after [fillna(0)] and [replace([np.inf], 100)]. *)
Definition df_hc_qoq (pv : DataFrame) : DataFrame :=
  replace_inf100 (fillna0 (growth_table 4 (df_hc_all pv))).


(** [df_hc_mix] after [fillna(0)]. *)
Definition df_hc_mix (pv : DataFrame) : option DataFrame :=
  fillna0 <$> mix_table (df_hc_all pv).

(** *** Sample pivots *)

(** Three segments over five quarters, before [fillna(0)]: a segment
    without a sale in a quarter has NaN there. *)
Definition zero_prior_pivot : DataFrame :=
  {| index_name := "Segment";
     index := ["Consumer"; "Corporate"; "Home Office"]%string;
     columns :=
       [("2015-Q4", [NaN; Fin 10; NaN]); ("2016-Q1", [Fin 20; Fin 30; Fin 5]);
        ("2016-Q2", [Fin 20; Fin 20; NaN]); ("2016-Q3", [NaN; Fin 30; Fin 5]);
        ("2016-Q4", [NaN; Fin 15; Fin 5])]%string |}.


(** Draws of the demo, all within [10000, 30000). *)
Definition sample_sales (k : nat) : Q := inject_Z (10000 + 100 * Z.of_nat k).

End Frame.

(* ===================================================================== *)
(** ** Alignment helpers *)
(* ===================================================================== *)

Module Align.

Inductive PP_ALIGN : Type := LEFT | CENTER | RIGHT.
Inductive MSO_VERTICAL_ANCHOR : Type := TOP | MIDDLE | BOTTOM.

(** The attributes of a paragraph, text frame or cell that the helpers
    assign.  [None] is the library default (nothing assigned). *)
Record shape : Type := mkShape {
  alignment : option PP_ALIGN;
  vertical_anchor : option MSO_VERTICAL_ANCHOR;
  text : list string
}.

Definition set_alignment (a : PP_ALIGN) (s : shape) : shape :=
  {| alignment := Some a;
     vertical_anchor := vertical_anchor s;
     text := text s |}.

Definition set_vertical_anchor (a : MSO_VERTICAL_ANCHOR) (s : shape) : shape :=
  {| alignment := alignment s;
     vertical_anchor := Some a;
     text := text s |}.

(** [[
match horizontal_alignment:
    case 'left': shape.alignment = PP_ALIGN.LEFT
    case 'center': shape.alignment = PP_ALIGN.CENTER
    case 'right': shape.alignment = PP_ALIGN.RIGHT
]] *)
Definition _horizontal_alignment (s : shape) (horizontal_alignment : string)
  : shape :=
  if String.eqb horizontal_alignment "left" then set_alignment LEFT s
  else if String.eqb horizontal_alignment "center" then set_alignment CENTER s
  else if String.eqb horizontal_alignment "right" then set_alignment RIGHT s
  else s.

(** [[
match vertical_alignment:
    case 'top': shape.vertical_anchor = MSO_VERTICAL_ANCHOR.TOP
    case 'middle': shape.vertical_anchor = MSO_VERTICAL_ANCHOR.MIDDLE
    case 'bottom': shape.vertical_anchor = MSO_VERTICAL_ANCHOR.BOTTOM
]] *)
Definition _vertical_alignment (s : shape) (vertical_alignment : string)
  : shape :=
  if String.eqb vertical_alignment "top" then set_vertical_anchor TOP s
  else if String.eqb vertical_alignment "middle"
       then set_vertical_anchor MIDDLE s
  else if String.eqb vertical_alignment "bottom"
       then set_vertical_anchor BOTTOM s
  else s.

(** A paragraph as the text slide of the demo leaves it. *)
Definition sample_shape : shape :=
  {| alignment := Some RIGHT; vertical_anchor := None;
     text := ["Horizontal alignment is done at the paragraph level."%string] |}.

End Align.

(* ===================================================================== *)
(** ** Sparkbar colouring *)
(* ===================================================================== *)

Module Spark.
Import Num.

Record RGBColor : Type := RGB { red : nat; green : nat; blue : nat }.

(** A data point of the clustered-column chart after the formatting loop. *)
Record point : Type := mkPoint {
  invert_if_negative : string;
  fore_color : RGBColor
}.

Record chart : Type := mkChart {
  maximum_scale : num;
  minimum_scale : num;
  gap_width : nat;
  values : list num;
  points : list point
}.

(** Python's [max(data)] and [min(data)]: the first element is kept until a
    strictly greater (smaller) one is met; both raise on an empty list. *)
Definition py_max (data : list num) : option num :=
  match data with
  | [] => None
  | x :: l => Some (fold_left (fun m y => if ltb m y then y else m) l x)
  end.

Definition py_min (data : list num) : option num :=
  match data with
  | [] => None
  | x :: l => Some (fold_left (fun m y => if ltb y m then y else m) l x)
  end.

(** The body of the loop over [series.points] for the value [v]. *)
Definition format_point (v : num) : point :=
  {| invert_if_negative := "0";
     fore_color :=
       if gt0 v then RGB 0 176 80
       else if lt0 v then RGB 235 70 81
       else RGB 0 0 0 |}.

(** [sparkbar(slide, data, x, y, cx, cy)]: the chart holds one series with
    one point per entry of [data]; [series.values[i]] is [data[i]]. *)
Definition sparkbar (data : list num) : option chart :=
  hi ← py_max data;
  lo ← py_min data;
  Some {| maximum_scale := hi;
          minimum_scale := lo;
          gap_width := 25;
          values := data;
          points := map format_point data |}.

End Spark.

(* ===================================================================== *)
(** ** Cell borders on the XML tree *)
(* ===================================================================== *)

Module Border.
Import Spark.

(** An lxml element: its tag in Clark notation ([{uri}local]), its
    attributes and its children in document order. *)
#[warnings="-register-all"]
Inductive element : Type :=
  Element (tag : string) (attrib : list (string * string))
          (children : list element).

Definition tag (e : element) : string :=
  match e with Element t _ _ => t end.
Definition attrib (e : element) : list (string * string) :=
  match e with Element _ a _ => a end.
Definition children (e : element) : list element :=
  match e with Element _ _ c => c end.

(** A table cell [a:tc]: its text body, and the attributes and children of
    its [a:tcPr] element (an absent [a:tcPr] is created empty by
    [get_or_add_tcPr]). *)
Record cell : Type := mkCell {
  txBody : list element;
  tcPr_attrib : list (string * string);
  tcPr : list element
}.

(** *** Strings *)

(** Python's [s.split(":")]. *)
Fixpoint split_colon (s : string) : list string :=
  match s with
  | EmptyString => [EmptyString]
  | String c s' =>
      if Ascii.eqb c ":"%char then EmptyString :: split_colon s'
      else match split_colon s' with
           | h :: t => String c h :: t
           | [] => [String c EmptyString]
           end
  end.

(** Python's [needle in hay] on strings. *)
Fixpoint is_substring (needle hay : string) : bool :=
  String.prefix needle hay ||
  match hay with
  | EmptyString => false
  | String _ hay' => is_substring needle hay'
  end.

(** *** Namespaces (the library's [qn] and [OxmlElement]) *)

Definition nsmap : list (string * string) :=
  [("a", "http://schemas.openxmlformats.org/drawingml/2006/main");
   ("c", "http://schemas.openxmlformats.org/drawingml/2006/chart");
   ("p", "http://schemas.openxmlformats.org/presentationml/2006/main");
   ("r", "http://schemas.openxmlformats.org/officeDocument/2006/relationships")
  ]%string.

Fixpoint assoc (k : string) (l : list (string * string)) : option string :=
  match l with
  | [] => None
  | (k', v) :: l' => if String.eqb k k' then Some v else assoc k l'
  end.

(** [qn('a:lnB')]: the Clark name; raises unless the argument is
    [prefix:local] with a known prefix. *)
Definition qn (nsptag : string) : option string :=
  match split_colon nsptag with
  | [pfx; local] =>
      uri ← assoc pfx nsmap;
      Some ("{" +:+ uri +:+ "}" +:+ local)%string
  | _ => None
  end.

(** A literal tag of the library, always well formed. *)
Definition a_ (local : string) : string :=
  ("{http://schemas.openxmlformats.org/drawingml/2006/main}" +:+ local)%string.

(** *** Children of an element *)

Definition has_tag (t : string) (e : element) : bool := String.eqb (tag e) t.

(** [parent.find(tag)]: the first child with that tag. *)
Definition find (t : string) (l : list element) : option element :=
  List.find (has_tag t) l.

(** [first_child_found_in]: the tags are tried in the given order. *)
Fixpoint first_child_found_in (tags : list string) (l : list element)
  : option element :=
  match tags with
  | [] => None
  | t :: ts =>
      match find t l with
      | Some e => Some e
      | None => first_child_found_in ts l
      end
  end.

(** [remove_all] of every child carrying one of the tags. *)
Definition remove_all (tags : list string) (l : list element) : list element :=
  List.filter (fun e => negb (existsb (fun t => has_tag t e) tags)) l.

(** [successor.addprevious(e)] for the first child tagged [t]. *)
Fixpoint insert_before_tag (t : string) (e : element) (l : list element)
  : list element :=
  match l with
  | [] => [e]
  | x :: l' => if has_tag t x then e :: x :: l'
               else x :: insert_before_tag t e l'
  end.

(** [insert_element_before]: before the first successor
    found, else appended. *)
Fixpoint insert_element_before (e : element) (successors : list string)
    (l : list element) : list element :=
  match successors with
  | [] => l ++ [e]
  | t :: ts =>
      if existsb (has_tag t) l then insert_before_tag t e l
      else insert_element_before e ts l
  end.

Fixpoint set_attr (k v : string) (a : list (string * string))
  : list (string * string) :=
  match a with
  | [] => [(k, v)]
  | (k', v') :: a' =>
      if String.eqb k k' then (k, v) :: a' else (k', v') :: set_attr k v a'
  end.

(** Replace the first child tagged [t] by [f] of it. *)
Fixpoint update_first (t : string) (f : element -> element)
    (l : list element) : list element :=
  match l with
  | [] => []
  | x :: l' => if has_tag t x then f x :: l'
               else x :: update_first t f l'
  end.

(** *** Hexadecimal colours ([RGBColor.from_string] and [str(rgb)]) *)

Definition hex_digits : list ascii :=
  ["0"; "1"; "2"; "3"; "4"; "5"; "6"; "7"; "8"; "9";
   "A"; "B"; "C"; "D"; "E"; "F"]%char.

Definition hex_val (c : ascii) : option nat :=
  let n := nat_of_ascii c in
  if (48 <=? n) && (n <=? 57) then Some (n - 48)
  else if (65 <=? n) && (n <=? 70) then Some (n - 55)
  else if (97 <=? n) && (n <=? 102) then Some (n - 87)
  else None.

Definition hex_char (d : nat) : ascii := nth d hex_digits "0"%char.

Definition format_byte (n : nat) : string :=
  String (hex_char (n / 16)) (String (hex_char (n mod 16)) EmptyString).

Definition parse_byte (hi lo : ascii) : option nat :=
  h ← hex_val hi; l ← hex_val lo; Some (16 * h + l).

Definition rgb_from_string (s : string) : option RGBColor :=
  match s with
  | String r1 (String r2 (String g1 (String g2
      (String b1 (String b2 EmptyString))))) =>
      r ← parse_byte r1 r2;
      g ← parse_byte g1 g2;
      b ← parse_byte b1 b2;
      Some (RGB r g b)
  | _ => None
  end.

Definition rgb_to_string (c : RGBColor) : string :=
  (format_byte (red c) +:+ format_byte (green c) +:+ format_byte (blue c))%string.

(** *** Fills (the library's [FillFormat] over [a:tcPr]) *)

Inductive MSO_FILL : Type :=
  BACKGROUND | GRADIENT | GROUP | PATTERNED | PICTURE | SOLID.

Definition fill_tags : list string :=
  map a_ ["noFill"; "solidFill"; "gradFill"; "blipFill"; "pattFill";
          "grpFill"]%string.

(** The elements that follow the fill in the schema of [a:tcPr]. *)
Definition fill_successors : list string :=
  map a_ ["headers"; "extLst"]%string.

Definition color_tags : list string :=
  map a_ ["scrgbClr"; "srgbClr"; "hslClr"; "sysClr"; "schemeClr";
          "prstClr"]%string.

(** [cell.fill.type]; [None] when the cell has no fill element. *)
Definition fill_type (l : list element) : option MSO_FILL :=
  e ← first_child_found_in fill_tags l;
  Some (if has_tag (a_ "noFill") e then BACKGROUND
        else if has_tag (a_ "solidFill") e then SOLID
        else if has_tag (a_ "gradFill") e then GRADIENT
        else if has_tag (a_ "blipFill") e then PICTURE
        else if has_tag (a_ "pattFill") e then PATTERNED
        else GROUP).

(** [fill.fore_color.rgb] of a solid fill; only an [a:srgbClr] colour has
    an RGB value. *)
Definition fore_color_rgb (l : list element) : option RGBColor :=
  sf ← find (a_ "solidFill") l;
  clr ← first_child_found_in color_tags (children sf);
  if has_tag (a_ "srgbClr") clr
  then v ← assoc "val" (attrib clr); rgb_from_string v
  else None.

(** [get_or_change_to_<fill>]: an existing element of that kind is kept,
    otherwise every fill element is removed and a fresh one is inserted
    at its place in the schema. *)
Definition get_or_change_to (t : string) (l : list element) : list element :=
  match find t l with
  | Some _ => l
  | None =>
      insert_element_before (Element t [] []) fill_successors
        (remove_all fill_tags l)
  end.

(** [fill.background()] and [fill.solid()]. *)
Definition background : list element -> list element :=
  get_or_change_to (a_ "noFill").
Definition solid : list element -> list element :=
  get_or_change_to (a_ "solidFill").

(** The colour children of a solid fill after [fore_color.rgb = c]. *)
Definition set_srgbClr (c : RGBColor) (ch : list element) : list element :=
  match find (a_ "srgbClr") ch with
  | Some _ =>
      update_first (a_ "srgbClr")
        (fun e => Element (tag e)
                    (set_attr "val" (rgb_to_string c) (attrib e))
                    (children e)) ch
  | None =>
      remove_all color_tags ch ++
      [Element (a_ "srgbClr") [("val"%string, rgb_to_string c)] []]
  end.

(** [fill.fore_color.rgb = c] on the solid fill of the cell. *)
Definition set_fore_color_rgb (c : RGBColor) (l : list element)
  : list element :=
  update_first (a_ "solidFill")
    (fun sf => Element (tag sf) (attrib sf) (set_srgbClr c (children sf))) l.

(** [_shape_fill(cell, fill_color)] with an already built [RGBColor]. *)
Definition _shape_fill (c : cell) (fill_color : RGBColor) : cell :=
  {| txBody := txBody c;
     tcPr_attrib := tcPr_attrib c;
     tcPr := set_fore_color_rgb fill_color (solid (tcPr c)) |}.

(** *** [_cell_border] *)

(** The part of a border name after its last colon:
    [lines.split(":")[-1]]. *)
Definition local_name (lines : string) : string :=
  default EmptyString (last (split_colon lines)).


(** [[
ln = SubElement(tcPr, lines, w=border_width, cap='flat', cmpd='sng', algn='ctr')
solidFill = SubElement(ln, 'a:solidFill')
srgbClr = SubElement(solidFill, 'a:srgbClr', val=border_color)
prstDash = SubElement(ln, 'a:prstDash', val=line_type)
]]
    as the finished [ln] element; [OxmlElement(lines)] raises on a name
    that [qn] rejects. *)
Definition border_line (lines line_type border_color border_width : string)
  : option element :=
  t ← qn lines;
  Some (Element t
          [("w", border_width); ("cap", "flat"); ("cmpd", "sng");
           ("algn", "ctr")]%string
          [Element (a_ "solidFill") []
             [Element (a_ "srgbClr") [("val"%string, border_color)] []];
           Element (a_ "prstDash") [("val"%string, line_type)] []]).

(** [[
for lines in borders:
    tag = lines.split(":")[-1]
    for e in tcPr.getchildren():
        if tag in str(e.tag):
            tcPr.remove(e)
    ln = SubElement(tcPr, lines, ...)
]] *)
Fixpoint apply_borders (borders : list string)
    (line_type border_color border_width : string) (l : list element)
  : option (list element) :=
  match borders with
  | [] => Some l
  | lines :: rest =>
      let tg := local_name lines in
      let kept := List.filter (fun e => negb (is_substring tg (tag e))) l in
      ln ← border_line lines line_type border_color border_width;
      apply_borders rest line_type border_color border_width (kept ++ [ln])
  end.

(** [_cell_border(cell, borders, line_type, border_color, border_width)];
    [None] when the call raises. *)
Definition _cell_border (c : cell) (borders : list string)
    (line_type border_color border_width : string) : option cell :=
  st ← match fill_type (tcPr c) with
       | Some SOLID =>
           fill_color ← fore_color_rgb (tcPr c);
           Some (Some fill_color, background (tcPr c))
       | _ => Some (None, tcPr c)
       end;
  l ← apply_borders borders line_type border_color border_width st.2;
  Some {| txBody := txBody c;
          tcPr_attrib := tcPr_attrib c;
          tcPr := match st.1 with
                  | Some fill_color => set_fore_color_rgb fill_color (solid l)
                  | None => l
                  end |}.

(** The call with the default keyword arguments, as both scripts make it:
    [_cell_border(cell, ['a:lnB'])]. *)
Definition _cell_border_default (c : cell) (borders : list string)
  : option cell :=
  _cell_border c borders "solid" "07182D" "12700".

(** The four border names of the docstring. *)
Definition documented_borders : list string :=
  ["a:lnL"; "a:lnR"; "a:lnT"; "a:lnB"]%string.

(** Fill elements, and the children of [a:tcPr] that are neither fill
    elements nor matched by the cleanup loop of one of [borders]. *)
Definition is_fill (e : element) : bool :=
  existsb (fun t => has_tag t e) fill_tags.

Definition untouched (borders : list string) (e : element) : bool :=
  negb (is_fill e) &&
  forallb (fun b => negb (is_substring (local_name b) (tag e))) borders.

(** A cell with a left and a bottom border and a gold fill. *)
Definition bordered_cell : cell :=
  {| txBody := [Element (a_ "txBody") [] []];
     tcPr_attrib := [("marL", "45720")]%string;
     tcPr :=
       [Element (a_ "lnL") [("w", "6350")]%string [];
        Element (a_ "lnB") [("w", "6350")]%string [];
        Element (a_ "solidFill") []
          [Element (a_ "srgbClr") [("val", "f1dd9d")]%string []]] |}.


End Border.

(* ===================================================================== *)
(** ** Top-level control flow of the two scripts *)
(* ===================================================================== *)

Module Script.
Import Align.

(** *** Decks and files *)

(** What a statement of the script puts on the current slide.  Content
    that depends on the data (table cells, one sparkline per row, one card
    per customer) is kept as one item. *)
Inductive item : Type :=
  | TextBox (s : shape)
  | Picture
  | AutoShape (name : string)
  | Chart (title : string)
  | Table (title : string)
  | TrendTable (title : string) (chart_type : string)
  | CustomerCards.

(** The data frame a pivot slide is computed from. *)
Inductive source : Type :=
  | NoData
  | Filtered (query : string)
  | Unfiltered.

(** The library calls (or groups of consecutive calls) that may raise. *)
Inductive site : Type :=
  | LoadData
  | NewPresentation
  | Query (n : nat)
  | CopyData (n : nat)
  | PrepareData (n : nat)
  | AddSlide (n : nat)
  | SlideContent (n : nat)
  | Boxplot
  | Caption
  | Placeholder
  | Save.

Inductive exn : Type :=
  | KeyError (key : string)
  | LibraryError (s : site).

(** The state the scripts act on: the slides of [prs] (the variable
    [slide] is the last one), the files on disk, the current [df_hc], and
    a ghost record of every exception raised so far. *)
Record world : Type := mkWorld {
  slides : list (list item);
  files : gmap string (list Byte.byte);
  df_hc : source;
  raised : list exn
}.

Inductive outcome (A : Type) : Type :=
  | Ok (a : A) (w : world)
  | Raise (e : exn) (w : world).
Arguments Ok {A} a w.
Arguments Raise {A} e w.

Definition M (A : Type) : Type := world -> outcome A.

Definition ret {A} (a : A) : M A := fun w => Ok a w.

Definition bind {A B} (m : M A) (k : A -> M B) : M B :=
  fun w => match m w with
           | Ok a w' => k a w'
           | Raise e w' => Raise e w'
           end.

Declare Scope script_scope.
Delimit Scope script_scope with script.
Notation "x <- m ;; k" := (bind m (fun x => k))
  (at level 100, m at next level, k at level 200, right associativity)
  : script_scope.
Notation "m ;; k" := (bind m (fun _ => k))
  (at level 100, k at level 200, right associativity) : script_scope.
Local Open Scope script_scope.

(** [raise e]; the exception is also recorded in the ghost log. *)
Definition throw {A} (e : exn) : M A :=
  fun w => Raise e {| slides := slides w; files := files w;
                      df_hc := df_hc w; raised := raised w ++ [e] |}.

(** [try: body / except: handler] with a bare [except]. *)
Definition try_except {A} (body handler : M A) : M A :=
  fun w => match body w with
           | Ok a w' => Ok a w'
           | Raise _ w' => handler w'
           end.

(** [d[key]] on a dict. *)
Definition getitem (d : gmap string string) (key : string) : M string :=
  match d !! key with
  | Some v => ret v
  | None => throw (KeyError key)
  end.

(** *** Effects of the library calls *)

Definition new_presentation (w : world) : world :=
  {| slides := []; files := files w; df_hc := df_hc w; raised := raised w |}.

(** [slide = prs.slides.add_slide(prs.slide_layouts[6])]. *)
Definition add_slide (w : world) : world :=
  {| slides := slides w ++ [[]]; files := files w; df_hc := df_hc w;
     raised := raised w |}.

Definition append_last (its : list item) (l : list (list item))
  : list (list item) :=
  match l with
  | [] => []
  | _ => removelast l ++ [List.last l [] ++ its]
  end.

(** Shapes added to [slide]. *)
Definition add_items (its : list item) (w : world) : world :=
  {| slides := append_last its (slides w); files := files w;
     df_hc := df_hc w; raised := raised w |}.

Definition set_df_hc (s : source) (w : world) : world :=
  {| slides := slides w; files := files w; df_hc := s; raised := raised w |}.

(** [shape_text(shape, text, ...)]: the alignment helpers are called once
    per entry of [text], inside the paragraph loop. *)
Definition shape_text (text : list string)
    (horizontal_alignment vertical_alignment : string) : shape :=
  let s := {| alignment := None; vertical_anchor := None; text := text |} in
  match text with
  | [] => s
  | _ => _vertical_alignment (_horizontal_alignment s horizontal_alignment)
           vertical_alignment
  end.

(** [add_textbox] followed by [shape_text]. *)
Definition textbox (text : string) (h v : string) : item :=
  TextBox (shape_text [text] h v).

(** The first bytes of every ZIP package with at least one member. *)
Definition zip_signature : list Byte.byte :=
  [Byte.x50; Byte.x4b; Byte.x03; Byte.x04].

Section Runs.

(** Which library calls raise in the run under consideration. *)
Variable raises : site -> bool.

(** The bytes of the saved package that follow the ZIP signature. *)
Variable package_tail : list (list item) -> list Byte.byte.

Definition call (s : site) (effect : world -> world) : M unit :=
  fun w => if raises s then throw (LibraryError s) w else Ok tt (effect w).

(** [prs.save(path)]. *)
Definition save (path : string) : M unit :=
  call Save (fun w =>
    {| slides := slides w;
       files := <[path := zip_signature ++ package_tail (slides w)]> (files w);
       df_hc := df_hc w; raised := raised w |}).

(** *** [python_pptx_demo.py] *)

(** [conclusion_text], a triple-quoted string of two lines. *)
Definition nl : string := String (ascii_of_nat 10) EmptyString.

Definition conclusion_text : string :=
  (nl +:+
   "python-pptx is a versatile library that allows you to manipulate PowerPoint files. It is useful for analyses that require many different cuts of the data or have a refresh cycle (i.e., a slide deck is updated at the end of every month/quarter). PowerPoint files can be created using the default settings, or an existing file can be read and manipulated. Uploading an existing file can be useful if a company has a set template already defined."
   +:+ nl +:+
   "This allows python to do a lot of the heavy lifting by calculating metrics and creating visuals quickly. Then the user can open the file and finish the presentation with any additional comments or formatting."
   +:+ nl)%string.

Definition demo_slide_items (n : nat) : list item :=
  match n with
  | 0 => [textbox "Presentation Demo" "center" "middle";
          textbox "python-pptx" "center" "middle"]
  | 1 => [textbox "Text Example" "left" "middle";
          textbox "Textbox example. Each textbox has a single text frame and is made up of multiple paragraphs." "left" "top";
          TextBox {| alignment := None; vertical_anchor := None;
                     text := ["A paragraph is any block of text broken up by a new line character.";
                              "This is paragraph 2."; "This is paragraph 3.";
                              "A text frame contains at least one initial paragraph."] |};
          textbox "A paragraph is made up of multiple runs. A run is a segment of text with shared styling." "left" "top";
          textbox "Horizontal alignment is done at the paragraph level." "right" "top";
          textbox "Vertical alignment is done at the text frame level." "left" "bottom";
          textbox "Text formatting is done at the run level:" "left" "top";
          TextBox {| alignment := Some LEFT; vertical_anchor := Some TOP;
                     text := ["Text color can be any RGB value. ";
                              "Text emphasis such as bold, italics, underline. Font size can be any point value. Text can be hyperlinked to a URL."] |}]
  | 2 => [textbox "Shapes Example" "left" "middle";
          AutoShape "CLOUD"; AutoShape "LIGHTNING_BOLT";
          AutoShape "LIGHTNING_BOLT"; AutoShape "LIGHTNING_BOLT";
          AutoShape "STAR_5_POINT"; AutoShape "STAR_6_POINT";
          AutoShape "STAR_7_POINT"; AutoShape "STAR_8_POINT";
          textbox "Shape fill/outline color along with outline weight. This cloud is colored dark gray with a white border that is 3px thick." "left" "top";
          textbox "Shapes can be rotated by any degree. This lightning bolt is rotated 315 degrees." "left" "top";
          textbox "Most shapes are created with a shadow effect by default. This lightning bolt has its shadow effect removed." "left" "top";
          textbox "Most shape objects have an existing text fame that can be used to insert text. Each star below has the number of points written in the center of the shape." "left" "top"]
  | 3 => [textbox "Charts Example" "left" "middle";
          Chart "Yearly Sales";
          textbox "Most of the built-in PowerPoint charts are accessible in python. This is an example of a stacked column chart with randomly generated data. The plot contains 4 series, one for each region." "left" "top";
          textbox "Axes labels can also be formatted, such as formatting the y-axis as $ amounts, or rotating the x-axis labels by 45/90 degrees for easier readability." "left" "top";
          textbox "Chart legends can also be added/positioned." "left" "top"]
  | 4 => [textbox "Tables and Sparklines Example" "left" "middle";
          Table "Yearly Sales ($)";
          TrendTable "Trend" "line";
          TrendTable "YoY Growth (%)" "bar";
          textbox "A table is created by setting the number of rows x columns. Each cell is like its own textbox and can have individual formatting. Cells can be accessed by looping through the table's index matrix." "left" "top";
          textbox "Cells can be merged together. The first row in the table is merged as a single cell." "left" "top";
          textbox "A cell's background color can be any RGB value." "left" "top";
          textbox "Borders can be applied to individual cells." "left" "top";
          textbox "Cell margins can be altered for better readability. All $ value cells have a left, top, and bottom cell margin of 0 inches with a small margin on the right." "left" "top";
          textbox "Sparklines can be recreated by inserting a table with blank values and overlaying a small line chart to fit within the cell dimensions. All other plot elements are removed such as axes, labels, gridlines, and legends." "left" "top"]
  | 5 => [textbox "Pictures Example" "left" "middle"]
  | 6 => [textbox "Conclusion" "left" "middle";
          textbox conclusion_text "left" "top"]
  | _ => []
  end%string.

Definition demo_caption : string :=
  "Any image file can be inserted into PowerPoint. For example, boxplots are not available in the python API, so the chart can be made in seaborn then saved as a PNG image and inserted onto the slide.".

Definition demo_placeholder : string :=
  "Any image file can be inserted into PowerPoint. The image file was unable to be inserted into the file. Check the seaborn_boxplot() function.".

(** One slide outside any handler: [add_slide], then its shapes. *)
Definition demo_slide (n : nat) : M unit :=
  call (AddSlide n) add_slide;;
  call (SlideContent n) (add_items (demo_slide_items n)).

(** [[
try:
    seaborn_boxplot(slide, df, ...)
    textbox = slide.shapes.add_textbox(...)
    shape_text(textbox, text=[...], font_size=14)
except:
    textbox = slide.shapes.add_textbox(...)
    shape_text(textbox, text=[...], font_size=14)
]] *)
Definition demo_picture : M unit :=
  try_except
    (call Boxplot (add_items [Picture]);;
     call Caption (add_items [textbox demo_caption "left" "top"]))
    (call Placeholder (add_items [textbox demo_placeholder "left" "top"])).

Definition demo_path : string := "./python_pptx_demo.pptx".

Definition run_demo : M unit :=
  call LoadData id;;
  call (PrepareData 0) id;;
  call NewPresentation new_presentation;;
  demo_slide 0 ;; demo_slide 1 ;; demo_slide 2 ;; demo_slide 3;;
  demo_slide 4;;
  demo_slide 5 ;; demo_picture;;
  demo_slide 6;;
  save demo_path.

(** *** [superstore_example.py] *)

(** The four branches of the rendering [match]; the pivot branch carries
    the test [current_slide['type'] == 'pivot_summary'] that adds the
    monthly chart. *)
Inductive branch : Type :=
  | Pivot (monthly_chart : bool)
  | TopCustomers
  | ShipModeAnalysis
  | Transition.

(** [[
match current_slide['type']:
    case x if x.startswith('pivot'): ...
    case 'top_customers': ...
    case 'ship_mode_analysis': ...
    case 'transition': ...
]] *)
Definition render_dispatch (ty : string) : option branch :=
  if String.prefix "pivot" ty then Some (Pivot (String.eqb ty "pivot_summary"))
  else if String.eqb ty "top_customers" then Some TopCustomers
  else if String.eqb ty "ship_mode_analysis" then Some ShipModeAnalysis
  else if String.eqb ty "transition" then Some Transition
  else None.

Definition superstore_placeholder : string :=
  "The image file was unable to be inserted into the file.".

(** [[
try:
    df_hc = df.query(current_slide['filters'])
except:
    df_hc = df.copy()
]] *)
Definition select_rows (i : nat) (d : gmap string string) : M unit :=
  try_except
    (q <- getitem d "filters";; call (Query i) (set_df_hc (Filtered q)))
    (call (CopyData i) (set_df_hc Unfiltered)).

(** The first [match] of the loop body: the dataframes of the slide. *)
Definition prepare (i : nat) (d : gmap string string) : M unit :=
  ty <- getitem d "type";;
  if String.prefix "pivot" ty then
    select_rows i d;;
    _ <- getitem d "pivot";;
    call (PrepareData i) id
  else if String.eqb ty "top_customers" then call (PrepareData i) id
  else if String.eqb ty "ship_mode_analysis" then call (PrepareData i) id
  else ret tt.

(** The second [match] of the loop body: the shapes of the slide. *)
Definition render (i : nat) (d : gmap string string) : M unit :=
  ty <- getitem d "type";;
  match render_dispatch ty with
  | Some (Pivot monthly_chart) =>
      title <- getitem d "title";;
      call (SlideContent i)
        (add_items
           ([textbox title "left" "middle";
             Table "Sales ($)";
             Table "Sales YoY Growth (%)";
             TrendTable "Trend" "line";
             TrendTable "YoY Growth (%)" "bar";
             Table "Sales Proportion (%)"]
            ++ (if monthly_chart then [Chart "Monthly Sales"] else [])))
  | Some TopCustomers =>
      title <- getitem d "title";;
      call (SlideContent i)
        (add_items [textbox title "left" "middle"; CustomerCards])
  | Some ShipModeAnalysis =>
      title <- getitem d "title";;
      call (SlideContent i) (add_items [textbox title "left" "middle"]);;
      try_except
        (call Boxplot (add_items [Picture]))
        (call Placeholder
           (add_items [textbox superstore_placeholder "left" "top"]))
  | Some Transition =>
      title <- getitem d "title";;
      call (SlideContent i) (add_items [textbox title "center" "middle"]);;
      match d !! "sub_title"%string with
      | Some sub_title =>
          call (SlideContent i)
            (add_items [textbox sub_title "center" "middle"])
      | None => ret tt
      end
  | None => ret tt
  end.

Definition slide_body (i : nat) (d : gmap string string) : M unit :=
  prepare i d;;
  call (AddSlide i) add_slide;;
  render i d.

(** [for current_slide in slide_order: ...]; [i] counts the entries. *)
Fixpoint slide_loop (i : nat) (order : list (gmap string string)) : M unit :=
  match order with
  | [] => ret tt
  | d :: rest => slide_body i d;; slide_loop (S i) rest
  end.

Definition superstore_path : string := "./superstore_example.pptx".

Definition run_superstore (order : list (gmap string string)) : M unit :=
  call LoadData id;;
  call NewPresentation new_presentation;;
  slide_loop 0 order;;
  save superstore_path.

End Runs.

(** [slide_order]. *)
Definition dq : string := String (ascii_of_nat 34) EmptyString.

Definition eq_filter (column value : string) : string :=
  (column +:+ " == " +:+ dq +:+ value +:+ dq)%string.

Definition dict (l : list (string * string)) : gmap string string :=
  list_to_map l.

Definition slide_order : list (gmap string string) :=
  [dict [("type", "transition"); ("title", "Superstore Analysis");
         ("sub_title", "a python-pptx use case")];
   dict [("type", "pivot_summary"); ("pivot", "Segment"); ("title", "Segment")];
   dict [("type", "pivot_summary"); ("pivot", "Region"); ("title", "Region")];
   dict [("type", "pivot_summary"); ("pivot", "Category");
         ("title", "Category")];
   dict [("type", "top_customers"); ("title", "Top Performing Customers")];
   dict [("type", "ship_mode_analysis"); ("title", "Ship Mode Comparison")];
   dict [("type", "transition"); ("title", "Appendix")];
   dict [("type", "pivot_dbl_click"); ("pivot", "State");
         ("title", "Region: East"); ("filters", eq_filter "Region" "East")];
   dict [("type", "pivot_dbl_click"); ("pivot", "State");
         ("title", "Region: West"); ("filters", eq_filter "Region" "West")];
   dict [("type", "pivot_dbl_click"); ("pivot", "State");
         ("title", "Region: South"); ("filters", eq_filter "Region" "South")];
   dict [("type", "pivot_dbl_click"); ("pivot", "State");
         ("title", "Region: Central");
         ("filters", eq_filter "Region" "Central")];
   dict [("type", "pivot_dbl_click"); ("pivot", "Sub-Category");
         ("title", "Category: Furniture");
         ("filters", eq_filter "Sub-Category" "Furniture")];
   dict [("type", "pivot_dbl_click"); ("pivot", "Sub-Category");
         ("title", "Category: Technology");
         ("filters", eq_filter "Sub-Category" "Technology")];
   dict [("type", "pivot_dbl_click"); ("pivot", "Sub-Category");
         ("title", "Category: Office Supplies");
         ("filters", eq_filter "Sub-Category" "Office Supplies")]]%string.


Definition empty_world : world :=
  {| slides := []; files := ∅; df_hc := NoData; raised := [] |}.

(** *** Specifications of computations *)

(** What a computation may do to the files and to the ghost log: the files
    stay as they are; the exceptions it raised and caught satisfy [H]; an
    exception it lets escape satisfies [U]. *)
Definition behaves {A} (H U : exn -> Prop) (m : M A) : Prop :=
  forall w,
    match m w with
    | Ok _ w' =>
        files w' = files w /\
        exists l, raised w' = raised w ++ l /\ Forall H l
    | Raise e w' =>
        files w' = files w /\ U e /\
        exists l, raised w' = raised w ++ l ++ [e] /\ Forall H l
    end.

(** An effect on the deck or on [df_hc] only. *)
Definition keeps_files_and_log (effect : world -> world) : Prop :=
  forall w, files (effect w) = files w /\ raised (effect w) = raised w.

(** Kinds of exceptions. *)
Definition any_exn (e : exn) : Prop := True.

Definition demo_handled (e : exn) : Prop :=
  e = LibraryError Boxplot \/ e = LibraryError Caption.

Definition superstore_handled (e : exn) : Prop :=
  e = LibraryError Boxplot \/ e = KeyError "filters" \/
  exists i, e = LibraryError (Query i).

(** A computation that ends by saving the deck to [path], and writes
    nothing when an exception escapes. *)
Definition saves {A} (package_tail : list (list item) -> list Byte.byte)
    (H : exn -> Prop) (path : string) (m : M A) : Prop :=
  forall w,
    match m w with
    | Ok _ w' =>
        files w' = <[path := zip_signature ++ package_tail (slides w')]> (files w) /\
        exists l, raised w' = raised w ++ l /\ Forall H l
    | Raise _ w' => files w' = files w
    end.


End Script.

(* ===================================================================== *)
(** ** Shapes of cells and frames *)
(* ===================================================================== *)

Module Bounds.
Import Num Frame.


(** A finite cell that is not negative. *)
Definition nonneg (x : num) : Prop :=
  match x with Fin q => (0 <= q)%Q | _ => False end.

(** A percentage between 0 and 100. *)
Definition percentage (x : num) : Prop :=
  match x with Fin q => (0 <= q)%Q /\ (q <= 100)%Q | _ => False end.

(** Every column has one cell per row label. *)
Definition rectangular (df : DataFrame) : Prop :=
  Forall (fun c => length c.2 = length (index df)) (columns df).

End Bounds.

(* ===================================================================== *)
(** ** Slides and keys of the superstore loop *)
(* ===================================================================== *)

Module Deck.
Import Script.

(** A computation that leaves the number of slides as it is, whether it
    returns or raises. *)
Definition keeps_count {A} (m : M A) : Prop :=
  forall w,
    match m w with
    | Ok _ w' | Raise _ w' => length (slides w') = length (slides w)
    end.

(** A computation that adds [n] slides when it returns. *)
Definition adds_slides {A} (n : nat) (m : M A) : Prop :=
  forall w,
    match m w with
    | Ok _ w' => length (slides w') = length (slides w) + n
    | Raise _ _ => True
    end.

(** The keys of a slide entry that the loop body reads with
    [current_slide[...]] outside any handler, in the order it reads them,
    once the type is known. *)
Definition required_keys (ty : string) : list string :=
  match render_dispatch ty with
  | Some (Pivot _) => ["pivot"; "title"]
  | Some _ => ["title"]
  | None => []
  end%string.

Definition first_missing (d : gmap string string) (keys : list string)
  : option string :=
  List.find (fun k => bool_decide (d !! k = None)) keys.

(** A pivot entry without its [pivot] key. *)
Definition entry_without_pivot : gmap string string :=
  dict [("type", "pivot_summary"); ("title", "Segment")]%string.

(** An entry whose type is none of the known ones. *)
Definition entry_of_unknown_type : gmap string string :=
  dict [("type", "summary"); ("title", "Summary")]%string.

End Deck.

(* ===================================================================== *)
(** ** Table geometry and the overlaid trend charts *)
(* ===================================================================== *)

Module Table.
Import Num Frame Spark.





Inductive outcome : Type :=
  | Returned
  | IndexError.

Section Sizes.

(** [Inches(x)]: the conversion of a float number of inches to EMU. *)
Variable Inches : Q -> Z.





End Sizes.

(** The configuration of both scripts. *)
Definition standard_column_width : Q := 0.70.



(** *** The overlay loop of [trend_table] *)

(** An item of [row.tolist()]: the label of column 0 or a float. *)
Inductive value : Type :=
  | Str (s : string)
  | Number (x : num).

(** Row [i] of [df.iterrows()]. *)
Definition row (df : DataFrame) (i : nat) : option (list value) :=
  label ← index df !! i;
  cells ← mapM (fun c => c.2 !! i) (columns df);
  Some (Str label :: map Number cells).






End Table.

(* ===================================================================== *)
(** ** The plot area of a sparkline *)
(* ===================================================================== *)

Module PlotArea.
Import Border.

(** A literal tag of the chart namespace. *)
Definition c_ (local : string) : string :=
  ("{http://schemas.openxmlformats.org/drawingml/2006/chart}" +:+ local)%string.

Definition layout_tags : list string :=
  map c_ ["layoutTarget"; "xMode"; "yMode"; "x"; "y"; "w"; "h"]%string.

(** [[
_ = SubElement(manual_layout, 'c:layoutTarget', val='inner')
_ = SubElement(manual_layout, 'c:xMode', val='edge')
_ = SubElement(manual_layout, 'c:yMode', val='edge')
_ = SubElement(manual_layout, 'c:x', val=str(0))
_ = SubElement(manual_layout, 'c:y', val=str(0))
_ = SubElement(manual_layout, 'c:w', val=str(1))
_ = SubElement(manual_layout, 'c:h', val=str(1))
]] *)
Definition full_area : list element :=
  [Element (c_ "layoutTarget") [("val", "inner")] [];
   Element (c_ "xMode") [("val", "edge")] [];
   Element (c_ "yMode") [("val", "edge")] [];
   Element (c_ "x") [("val", "0")] [];
   Element (c_ "y") [("val", "0")] [];
   Element (c_ "w") [("val", "1")] [];
   Element (c_ "h") [("val", "1")] []]%string.

(** [layout.get_or_add_manualLayout()] on the children of the layout: a
    new [c:manualLayout] goes before [c:extLst]. *)
Definition get_or_add_manualLayout (l : list element) : list element :=
  match find (c_ "manualLayout") l with
  | Some _ => l
  | None => insert_element_before (Element (c_ "manualLayout") [] [])
              [c_ "extLst"] l
  end.

(** [manual_layout.remove_all(...)] followed by the seven [SubElement]
    calls. *)
Definition pin (manual_layout : element) : element :=
  Element (tag manual_layout) (attrib manual_layout)
    (remove_all layout_tags (children manual_layout) ++ full_area).

(** The statements after [layout] is chosen. *)
Definition pin_layout (layout : element) : element :=
  Element (tag layout) (attrib layout)
    (update_first (c_ "manualLayout") pin
       (get_or_add_manualLayout (children layout))).

(** [[
plot_area_children = plot_area.getchildren()
pac_layout = [x for x in plot_area_children if isinstance(x, CT_Layout)]
if len(pac_layout) == 1:
    layout = pac_layout[0]
else:
    layout = SubElement(plot_area, 'c:layout', val='inner')
manual_layout = layout.get_or_add_manualLayout()
...
]]
    the last block of [_plot_area_only], on the children of [c:plotArea]
    (the assignments before it act on the axes, the title and the legend,
    not on the layout elements); an element is a [CT_Layout] exactly when
    its tag is [c:layout]. *)
Definition pac_layout (plot_area : list element) : list element :=
  List.filter (has_tag (c_ "layout")) plot_area.

(** [SubElement(plot_area, 'c:layout', val='inner')] after the statements
    that follow. *)
Definition new_layout : element :=
  pin_layout (Element (c_ "layout") [("val", "inner")%string] []).

Definition _plot_area_only (plot_area : list element) : list element :=
  match pac_layout plot_area with
  | [_] => update_first (c_ "layout") pin_layout plot_area
  | _ => plot_area ++ [new_layout]
  end.

(** The manual layouts of the plot area, one list of children per
    [c:manualLayout] of a [c:layout]. *)
Definition manual_layouts (plot_area : list element) : list (list element) :=
  flat_map (fun layout =>
              map children
                (List.filter (has_tag (c_ "manualLayout")) (children layout)))
           (pac_layout plot_area).

(** The plot area of a new line chart, and one with two layouts. *)
Definition line_plot_area : list element :=
  [Element (c_ "layout") [] [];
   Element (c_ "lineChart") [] [];
   Element (c_ "catAx") [] [];
   Element (c_ "valAx") [] []].

Definition two_layouts : list element :=
  [Element (c_ "layout") [] []; Element (c_ "layout") [] [];
   Element (c_ "barChart") [] []].

End PlotArea.

(* ===================================================================== *)
(** ** Fill colours given as dictionaries *)
(* ===================================================================== *)

Module Fill.
Import Spark Border.

Inductive error : Type :=
  | KeyError (key : string)
  | ValueError.

(** [RGBColor(r, g, b)]: raises [ValueError] unless the three values lie
    between 0 and 255. *)
Definition RGBColor_new (r g b : Z) : option RGBColor :=
  if forallb (fun v => (0 <=? v)%Z && (v <=? 255)%Z) [r; g; b]
  then Some (RGB (Z.to_nat r) (Z.to_nat g) (Z.to_nat b))
  else None.

(** [RGBColor(d['r'], d['g'], d['b'])]: the arguments are evaluated from
    left to right, then the constructor checks them. *)
Definition color_of (d : gmap string Z) : error + RGBColor :=
  match d !! "r"%string with
  | None => inl (KeyError "r")
  | Some r =>
      match d !! "g"%string with
      | None => inl (KeyError "g")
      | Some g =>
          match d !! "b"%string with
          | None => inl (KeyError "b")
          | Some b =>
              match RGBColor_new r g b with
              | None => inl ValueError
              | Some c => inr c
              end
          end
      end
  end.

(** [[
fill = shape.fill
fill.solid()
fill.fore_color.rgb = RGBColor(fill_color['r'],fill_color['g'],fill_color['b'])
]]
    on a table cell; the cell is given as the call leaves it, also when
    the last statement raises. *)
Definition _shape_fill (c : cell) (fill_color : gmap string Z)
  : cell * option error :=
  match color_of fill_color with
  | inl e =>
      ({| txBody := txBody c; tcPr_attrib := tcPr_attrib c;
          tcPr := solid (tcPr c) |}, Some e)
  | inr rgb => (Border._shape_fill c rgb, None)
  end.

(** The colours of the configuration. *)
Definition color (r g b : Z) : gmap string Z :=
  list_to_map [("r"%string, r); ("g"%string, g); ("b"%string, b)].

Definition primary_color : gmap string Z := color 7 24 45.
Definition secondary_color : gmap string Z := color 241 221 157.
Definition white_color : gmap string Z := color 255 255 255.

(** The schema of [a:tcPr] allows one fill element, and that of
    [a:solidFill] one colour element. *)
Definition is_color (e : element) : bool :=
  existsb (fun t => has_tag t e) color_tags.

Definition one_fill (l : list element) : Prop :=
  length (List.filter is_fill l) <= 1.

Definition one_color (l : list element) : Prop :=
  forall sf, find (a_ "solidFill") l = Some sf ->
             length (List.filter is_color (children sf)) <= 1.

End Fill.

(* ===================================================================== *)
(** ** Paragraphs and runs of a text frame *)
(* ===================================================================== *)

Module Text.
Import Spark Align Fill.

(** An item of [text]: a string, or a list of strings that become the
    runs of one paragraph ([isinstance(line, list)]). *)
Inductive line : Type :=
  | Plain (s : string)
  | Runs (sub_lines : list string).

Record run : Type := mkRun {
  run_text : string;
  size : Z;                      (* [util.Pt(font_size)], in points *)
  bold : bool;
  color : RGBColor
}.

(** A paragraph: its runs, whether it carries the bullet properties
    ([marL='0'], [indent='171450'] and an [a:buChar] child), and its
    alignment. *)
Record paragraph : Type := mkParagraph {
  runs : list run;
  bullet : bool;
  p_alignment : option PP_ALIGN
}.

Record text_frame : Type := mkTextFrame {
  paragraphs : list paragraph;
  word_wrap : option bool;
  anchor : option MSO_VERTICAL_ANCHOR
}.

Inductive error : Type :=
  | IndexError
  | ColorError (e : Fill.error).

(** The alignment helpers on the attribute they assign. *)
Definition horizontal (h : string) (old : option PP_ALIGN) : option PP_ALIGN :=
  alignment (_horizontal_alignment
               {| alignment := old; vertical_anchor := None; text := [] |} h).

Definition vertical (v : string) (old : option MSO_VERTICAL_ANCHOR)
  : option MSO_VERTICAL_ANCHOR :=
  vertical_anchor (_vertical_alignment
                     {| alignment := None; vertical_anchor := old; text := [] |} v).

Section Paragraphs.

Variable font_size : Z.
Variable font_color : gmap string Z.
Variable bold_ : bool.
Variables horizontal_alignment vertical_alignment : string.
Variable bulleted : bool.
Variable run_bold : list bool.

(** [[
run = p.add_run()
run.text = s
run.font.size = util.Pt(font_size)
run.font.bold = b
run.font.color.rgb = RGBColor(font_color['r'],font_color['g'],font_color['b'])
]] *)
Definition new_run (s : string) (b : bool) : error + run :=
  match color_of font_color with
  | inl e => inl (ColorError e)
  | inr c => inr {| run_text := s; size := font_size; bold := b; color := c |}
  end.

(** [for index, sub_line in enumerate(line): ...] from [index] on;
    [run_bold[index]] is read before the colour. *)
Fixpoint add_runs (sub_lines : list string) (index : nat) : error + list run :=
  match sub_lines with
  | [] => inr []
  | sub_line :: rest =>
      match run_bold !! index with
      | None => inl IndexError
      | Some b =>
          match new_run sub_line b with
          | inl e => inl e
          | inr r =>
              match add_runs rest (S index) with
              | inl e => inl e
              | inr rs => inr (r :: rs)
              end
          end
      end
  end.

(** The body of the loop over [text] for one line: the new paragraph. *)
Definition add_paragraph (l : line) : error + paragraph :=
  match match l with
        | Runs sub_lines => add_runs sub_lines 0
        | Plain s =>
            match new_run s bold_ with
            | inl e => inl e
            | inr r => inr [r]
            end
        end with
  | inl e => inl e
  | inr rs =>
      inr {| runs := rs; bullet := bulleted;
             p_alignment := horizontal horizontal_alignment None |}
  end.

(** The loop over [text]: the new paragraphs, and the anchor of the text
    frame, which [_vertical_alignment(tf, ...)] assigns once per line. *)
Fixpoint add_paragraphs (text : list line) (a : option MSO_VERTICAL_ANCHOR)
  : error + (list paragraph * option MSO_VERTICAL_ANCHOR) :=
  match text with
  | [] => inr ([], a)
  | l :: rest =>
      match add_paragraph l with
      | inl e => inl e
      | inr p =>
          match add_paragraphs rest (vertical vertical_alignment a) with
          | inl e => inl e
          | inr (ps, a') => inr (p :: ps, a')
          end
      end
  end.

(** [_paragraphs(shape, text, ...)] on the text frame of the shape:
    [tf.paragraphs[0]] raises on a frame without paragraph, and a
    paragraph object is always true, so the first paragraph is removed.
    The frame is given when the call returns. *)
Definition _paragraphs (tf : text_frame) (text : list line)
  : error + text_frame :=
  match paragraphs tf with
  | [] => inl IndexError
  | _ :: kept =>
      match add_paragraphs text (anchor tf) with
      | inl e => inl e
      | inr (ps, a) =>
          inr {| paragraphs := kept ++ ps; word_wrap := Some true;
                 anchor := a |}
      end
  end.

End Paragraphs.

(** The strings of a line, one per run. *)
Definition strings (l : line) : list string :=
  match l with
  | Plain s => [s]
  | Runs sub_lines => sub_lines
  end.


(** What the loop body makes of one line. *)
Definition rendered (font_size : Z) (font_color : gmap string Z) (bold_ : bool)
    (horizontal_alignment : string) (bulleted : bool) (run_bold : list bool)
    (l : line) (p : paragraph) : Prop :=
  map run_text (runs p) = strings l /\
  map bold (runs p) =
    match l with
    | Plain _ => [bold_]
    | Runs sub_lines => take (length sub_lines) run_bold
    end /\
  Forall (fun r => size r = font_size /\ color_of font_color = inr (color r))
         (runs p) /\
  bullet p = bulleted /\
  p_alignment p = horizontal horizontal_alignment None.

(** The text frame of a new text box or table cell: one empty
    paragraph. *)
Definition new_frame : text_frame :=
  {| paragraphs := [{| runs := []; bullet := false; p_alignment := None |}];
     word_wrap := None; anchor := None |}.

(** The default of [run_bold] in [shape_text]. *)
Definition default_run_bold : list bool := [false; false].

End Text.

(* ===================================================================== *)
(** ** Series colours of the stacked column chart *)
(* ===================================================================== *)

Module Column.
Import Num Spark Fill.

(** A row of the long dataframe given to the chart: the grouping of
    column 0, the category on the x axis, and the sales. *)
Record row : Type := mkRow {
  group : string;
  category : string;
  sales : num
}.

(** [Series.unique()] and [drop_duplicates()]: the distinct values in
    order of first appearance. *)
Fixpoint unique (l : list string) : list string :=
  match l with
  | [] => []
  | x :: l' => x :: List.filter (fun y => negb (String.eqb y x)) (unique l')
  end.

(** [series_colors]. *)
Definition series_colors : list (gmap string Z) :=
  [color 0 48 78; color 214 40 40; color 247 127 0; color 252 191 73].

(** A formatted series: its name, its values, the fill of its legend
    entry, and for each of its points the fill and the line colour. *)
Record series : Type := mkSeries {
  name : string;
  values : list num;
  legend_fill : RGBColor;
  points : list (RGBColor * RGBColor)
}.

Inductive error : Type :=
  | IndexError
  | ColorError (e : Fill.error).

(** [chart_data.add_series(series_name, df[df[df.columns[0]] == series_name]['Sales'])]. *)
Definition series_values (df : list row) (series_name : string) : list num :=
  map sales (List.filter (fun r => String.eqb (group r) series_name) df).

(** The body of the formatting loop for series [index]; a series of the
    chart has one point per category. *)
Definition format_series (df : list row) (index : nat) (series_name : string)
  : error + series :=
  match series_colors !! index with
  | None => inl IndexError
  | Some d =>
      match color_of d with
      | inl e => inl (ColorError e)
      | inr c =>
          inr {| name := series_name;
                 values := series_values df series_name;
                 legend_fill := c;
                 points := replicate (length (unique (map category df))) (c, c) |}
      end
  end.

Fixpoint format_from (df : list row) (index : nat) (names : list string)
  : error + list series :=
  match names with
  | [] => inr []
  | series_name :: rest =>
      match format_series df index series_name with
      | inl e => inl e
      | inr s =>
          match format_from df (S index) rest with
          | inl e => inl e
          | inr ss => inr (s :: ss)
          end
      end
  end.

(** [column_chart(slide, df, ...)] and [monthly_column_chart(slide, df, ...)]:
    the series of the chart after the formatting loop. *)
Definition column_chart (df : list row) : error + list series :=
  format_from df 0 (unique (map group df)).

(** The long dataframe of the demo: four regions with eleven years
    each. *)
Definition demo_rows (draw : nat -> Q) : list row :=
  flat_map (fun r =>
              imap (fun y year =>
                      {| group := r.2; category := year;
                         sales := Fin (draw (11 * r.1 + y)) |})
                   Frame.years)
           [(0, "Northeast"); (1, "South"); (2, "Midwest"); (3, "West")]%string.

End Column.

(* ===================================================================== *)
(** ** Calendar quarters and the proportion table *)
(* ===================================================================== *)

From Stdlib Require Import Qround DecimalString.

Module Period.
Import Num Frame.

(** [np.ceil(df['Order_Month']/3).astype(int)] on one month. *)
Definition Order_Quarter (month : Z) : Z := Qceiling (inject_Z month / 3).

(** [str(n)] and [astype(str)] on an integer. *)
Definition str (n : Z) : string := NilZero.string_of_int (Z.to_int n).

(** [df['Order_Year'].astype(str) + '-Q' + df['Order_Quarter'].astype(str)]
    on one row. *)
Definition Calendar_Quarter (year month : Z) : string :=
  (str year +:+ "-Q" +:+ str (Order_Quarter month))%string.

(** [int(s)] on a string of decimal digits with an optional minus sign;
    [None] is [ValueError].  The other spellings that Python accepts
    (a plus sign, blanks around the number, underscores between digits)
    are not covered: they give [None] here too. *)
Definition int (s : string) : option Z := Z.of_int <$> NilZero.int_of_string s.

(** [f'{str(int(last[:4])-k)}-{last[-2:]}'] for the name [last] of the
    last column. *)
Definition period_label (last_column : string) (k : Z) : option string :=
  y ← int (String.substring 0 4 last_column);
  Some (str (y - k) +:+ "-" +:+ last2 last_column)%string.

Inductive error : Type :=
  | IndexError
  | ValueError
  | KeyError (label : string)
  | TypeError.

(** [row[label]/100] for row [i] of [df.iterrows()]: the label is looked
    up among all columns of the frame, and a string cannot be divided. *)
Definition bar_width (df : DataFrame) (i : nat) (label : string)
  : error + num :=
  if String.eqb label (index_name df) then inl TypeError
  else
    match List.find (fun c => String.eqb c.1 label) (columns df) with
    | None => inl (KeyError label)
    | Some c =>
        match c.2 !! i with
        | None => inl IndexError
        | Some x => inr (div x (Fin 100))
        end
    end.

(** The three [propbar] calls for row [i], two years back first. *)
Definition row_bars (df : DataFrame) (i : nat) : error + list num :=
  match last (columns df) with
  | None => inl IndexError
  | Some lc =>
      let bar k :=
        match period_label lc.1 k with
        | None => inl ValueError
        | Some label => bar_width df i label
        end in
      match bar 2%Z with
      | inl e => inl e
      | inr w2 =>
          match bar 1%Z with
          | inl e => inl e
          | inr w1 =>
              match bar 0%Z with
              | inl e => inl e
              | inr w0 => inr [w2; w1; w0]
              end
          end
      end
  end.

Fixpoint all_bars (df : DataFrame) (rows : list nat) : error + list (list num) :=
  match rows with
  | [] => inr []
  | i :: rest =>
      match row_bars df i with
      | inl e => inl e
      | inr ws =>
          match all_bars df rest with
          | inl e => inl e
          | inr wss => inr (ws :: wss)
          end
      end
  end.

(** [prop_table(df, ...)]: the loop over the cells reads
    [df.columns[j+1]] for [j] in [range(0,3)], starting with the header
    row, and the final loop over [df.iterrows()] draws three bars per
    row; the result is the width of each bar as a fraction of the cell. *)
Definition prop_table (df : DataFrame) : error + list (list num) :=
  if length (columns df) <? 3 then inl IndexError
  else all_bars df (seq 0 (length (index df))).

(** [propbar(width, ...)]: the width of the rectangle in inches,
    [0.69*width]. *)
Definition propbar_width (width : num) : num := mul (Fin 0.69) width.

(** Periods as (year, month), the names of their columns, and the periods
    of the script's data: four-digit years. *)
Definition column_name (p : Z * Z) : string := Calendar_Quarter p.1 p.2.

Definition valid_period (p : Z * Z) : Prop :=
  (1000 <= p.1 <= 9999)%Z /\ (1 <= p.2 <= 12)%Z.

(** The digit that ends the name of a quarter. *)
Definition quarter_digit (q : Z) : ascii :=
  match str q with
  | String d _ => d
  | EmptyString => "0"%char
  end.

Definition same_quarter (m : Z) (p : Z * Z) : bool :=
  (Order_Quarter p.2 =? Order_Quarter m)%Z.

(** A pivot over the sixteen quarters of 2015 to 2018, two segments. *)
Definition four_years : DataFrame :=
  {| index_name := "Segment";
     index := ["Consumer"; "Corporate"]%string;
     columns :=
       flat_map (fun y =>
                   map (fun m => (Calendar_Quarter y m,
                                  [Fin (inject_Z (y - 2000 + m));
                                   Fin (inject_Z m)]))
                       [1; 4; 7; 10]%Z)
                [2015; 2016; 2017; 2018]%Z |}.

Definition four_years_periods : list (Z * Z) :=
  flat_map (fun y => map (fun m => (y, m)) [1; 4; 7; 10]%Z)
           [2015; 2016; 2017; 2018]%Z.

End Period.

(* ===================================================================== *)
(** ** Colours of the growth table *)
(* ===================================================================== *)

Module Growth.
Import Num Spark Fill.





Definition bar_black : RGBColor := RGB 0 0 0.

End Growth.

(* ===================================================================== *)
(** ** The rows that the table builders underline *)
(* ===================================================================== *)

Module Rules.

(** [range(first, len(df)+2)] as table row numbers. *)
Definition table_rows (first n : nat) : list Z :=
  map Z.of_nat (seq first (n + 2 - first)).

(** The table rows [i] on whose cells a builder calls
    [_cell_border(cell, ['a:lnB'])], for a frame of [n = len(df)] rows.

    [value_table] (and [table] of the demo): the call sits in the two
    branches for data cells, which the header row [i == 1] does not
    reach:
    [[
if i == 1: ...
elif isinstance(df.iloc[i-2,j], (int, float)):
    ...
    if (i-1 == len(df)) or (i-1 == len(df)-1): cell = _cell_border(cell, ['a:lnB'])
else:
    ...
    if (i-1 == len(df)) or (i-1 == len(df)-1): cell = _cell_border(cell, ['a:lnB'])
]] *)
Definition value_table (n : nat) : list Z :=
  List.filter
    (fun i => negb (i =? 1)%Z &&
              ((i - 1 =? Z.of_nat n)%Z || (i - 1 =? Z.of_nat n - 1)%Z))
    (table_rows 1 n).

(** [qoq_table]: the call follows the branches, for every row. *)
Definition qoq_table (n : nat) : list Z :=
  List.filter
    (fun i => (i - 1 =? Z.of_nat n)%Z || (i - 1 =? Z.of_nat n - 1)%Z)
    (table_rows 1 n).

(** [prop_table]: the call for the last row sits in the branches for data
    cells, the call for the row before it follows the branches. *)
Definition prop_table (n : nat) : list Z :=
  List.filter
    (fun i => (negb (i =? 1)%Z && (i - 1 =? Z.of_nat n)%Z)
              || (i - 1 =? Z.of_nat n - 1)%Z)
    (table_rows 1 n).

(** [trend_table]: [for i in range(2, len(df)+2): ...
    if (i==len(df)) or (i==len(df)+1): cell = _cell_border(cell, ['a:lnB'])]. *)
Definition trend_table (n : nat) : list Z :=
  List.filter
    (fun i => (i =? Z.of_nat n)%Z || (i =? Z.of_nat n + 1)%Z)
    (table_rows 2 n).

End Rules.

(* ===================================================================== *)
(** * Properties *)
(* ===================================================================== *)

(** ** Alignment helpers *)

Section AlignFacts.
Import Align.

(** C7: [_horizontal_alignment] maps exactly ['left'], ['center'] and
    ['right'] to [PP_ALIGN.LEFT], [PP_ALIGN.CENTER] and [PP_ALIGN.RIGHT],
    [_vertical_alignment] maps exactly ['top'], ['middle'] and ['bottom']
    to the three vertical anchors, and any other string leaves the shape
    as it was. *)
Theorem alignment_helpers_map_three_strings :
  forall (s : shape) (a : string),
    (a = "left"%string -> _horizontal_alignment s a = set_alignment LEFT s) /\
    (a = "center"%string ->
       _horizontal_alignment s a = set_alignment CENTER s) /\
    (a = "right"%string -> _horizontal_alignment s a = set_alignment RIGHT s) /\
    (a <> "left"%string -> a <> "center"%string -> a <> "right"%string ->
       _horizontal_alignment s a = s) /\
    (a = "top"%string -> _vertical_alignment s a = set_vertical_anchor TOP s) /\
    (a = "middle"%string ->
       _vertical_alignment s a = set_vertical_anchor MIDDLE s) /\
    (a = "bottom"%string ->
       _vertical_alignment s a = set_vertical_anchor BOTTOM s) /\
    (a <> "top"%string -> a <> "middle"%string -> a <> "bottom"%string ->
       _vertical_alignment s a = s).
Proof.
  intros s a.
  repeat split; try (intros ->; reflexivity).
  - intros H1 H2 H3. unfold _horizontal_alignment.
    destruct (String.eqb_spec a "left"); [contradiction |].
    destruct (String.eqb_spec a "center"); [contradiction |].
    destruct (String.eqb_spec a "right"); [contradiction | reflexivity].
  - intros H1 H2 H3. unfold _vertical_alignment.
    destruct (String.eqb_spec a "top"); [contradiction |].
    destruct (String.eqb_spec a "middle"); [contradiction |].
    destruct (String.eqb_spec a "bottom"); [contradiction | reflexivity].
Qed.

Lemma alignment_helpers_witness :
  _horizontal_alignment sample_shape "center" = set_alignment CENTER sample_shape /\
  _horizontal_alignment sample_shape "justify" = sample_shape /\
  _vertical_alignment sample_shape "middle"
    = set_vertical_anchor MIDDLE sample_shape /\
  _vertical_alignment sample_shape "Top" = sample_shape.
Proof.
  split; [| split; [| split]].
  - apply (alignment_helpers_map_three_strings sample_shape "center").
    reflexivity.
  - apply (alignment_helpers_map_three_strings sample_shape "justify");
      discriminate.
  - apply (alignment_helpers_map_three_strings sample_shape "middle").
    reflexivity.
  - apply (alignment_helpers_map_three_strings sample_shape "Top");
      discriminate.
Defined.

End AlignFacts.

(** ** Sparkbar colouring *)

Section SparkFacts.
Import Num Spark.







End SparkFacts.

(** ** Summary tables *)

Section FrameFacts.
Import Num Frame.

Lemma sum_skipna_no_nan (l : list num) :
  Forall (fun x => is_nan x = false) l -> sum_skipna l = sum_list l.
Proof.
  intros H. unfold sum_skipna. f_equal.
  induction H as [| x l Hx _ IH]; [reflexivity |].
  rewrite filter_cons_True by exact Hx. now rewrite IH.
Qed.

Lemma fillna0_no_nan (l : list num) :
  Forall (fun x => is_nan x = false) (map (fillna (Fin 0)) l).
Proof.
  apply Forall_fmap, Forall_forall. intros x _. now destruct x.
Qed.






Lemma lag_loop_zip {A B : Type} (h : A -> A -> B) (l : list A) (lag n a : nat) :
  lag <= a -> a + n <= length l ->
  omap (fun j => cur ← l !! j; prior ← l !! (j - lag); Some (h cur prior))
       (seq a n)
  = zip_with h (take n (drop a l)) (take n (drop (a - lag) l)).
Proof.
  revert a. induction n as [| n IH]; intros a Hlag Hlen; [reflexivity |].
  destruct (lookup_lt_is_Some_2 l a) as [x Hx]; [lia |].
  destruct (lookup_lt_is_Some_2 l (a - lag)) as [y Hy]; [lia |].
  simpl seq. simpl omap. rewrite Hx, Hy. simpl.
  rewrite (drop_S l x a Hx), (drop_S l y (a - lag) Hy). simpl.
  f_equal. rewrite IH by lia. do 3 f_equal. lia.
Qed.

Lemma growth_columns_zip (lag : nat) (cols : list (string * list num)) :
  growth_columns lag cols
  = zip_with (fun cur prior => (cur.1, pct_change cur.2 prior.2))
      (drop lag cols) cols.
Proof.
  unfold growth_columns.
  destruct (Nat.le_gt_cases lag (length cols)) as [H | H].
  - rewrite (lag_loop_zip (fun cur prior => (cur.1, pct_change cur.2 prior.2)))
      by lia.
    rewrite Nat.sub_diag, drop_0.
    rewrite take_ge by (rewrite length_drop; lia).
    apply zip_with_take_r'. rewrite length_drop. lia.
  - replace (length cols - lag) with 0 by lia.
    rewrite drop_ge by lia. reflexivity.
Qed.








Lemma sum_list_Fin (qs : list Q) : sum_list (map Fin qs) = Fin (qsum qs).
Proof.
  unfold sum_list, qsum. generalize 0%Q as a.
  induction qs as [| x qs IH]; intros a; simpl; [reflexivity | apply IH].
Qed.



(** The columns of the mix table come from quarter columns of [df_hc]:
    cells [hc] above the total [t]. *)
Lemma df_hc_mix_columns (pv mix : DataFrame) (n : string) (m : list num) :
  df_hc_mix pv = Some mix -> (n, m) ∈ columns mix ->
  exists hc t,
    (n, hc ++ [t]) ∈ columns (df_hc_all pv) /\
    t = sum_list hc /\
    m = map (fillna (Fin 0))
          (map (fun x => mul (div x t) (Fin 100)) (hc ++ [t])).
Proof.
  unfold df_hc_mix, mix_table. intros H Hin.
  destruct (mapM _ _) as [cols |] eqn:E; [| discriminate].
  simpl in H. destruct cols as [| first kept]; [discriminate |].
  simpl in H. injection H as <-. simpl in Hin.
  apply list_elem_of_fmap in Hin as ([n1 m1] & Heq & Hin).
  simpl in Heq. injection Heq as -> ->.
  apply mapM_Some in E.
  assert (Hin' : (n1, m1) ∈ first :: kept) by now right.
  apply list_elem_of_lookup in Hin' as [i Hi].
  destruct (Forall2_lookup_r _ _ _ _ _ E Hi) as ([n0 c0] & Hc0 & Hmix).
  simpl in Hmix. unfold mix_column in Hmix.
  destruct (last c0) as [t |] eqn:Et; [| discriminate].
  simpl in Hmix. injection Hmix as <- <-.
  apply list_elem_of_lookup_2 in Hc0.
  assert (Hsrc : (n0, c0) ∈ columns (df_hc_all pv)).
  { unfold same_period in Hc0. destruct (last _); [| now apply elem_of_nil in Hc0].
    now apply list_elem_of_filter in Hc0 as [_ ?]. }
  pose proof Hsrc as Hsrc'.
  unfold df_hc_all, add_totals in Hsrc'. simpl in Hsrc'.
  rewrite map_map in Hsrc'. simpl in Hsrc'.
  apply list_elem_of_fmap in Hsrc' as ([n2 c2] & Heq & Hin2).
  simpl in Heq. injection Heq as -> ->.
  rewrite last_snoc in Et. injection Et as <-.
  exists (map (fillna (Fin 0)) c2), (sum_skipna (map (fillna (Fin 0)) c2)).
  split; [exact Hsrc |]. split; [| reflexivity].
  apply sum_skipna_no_nan, fillna0_no_nan.
Qed.










End FrameFacts.

(** ** Control flow of the scripts *)

Import Align Script.
Local Open Scope script_scope.

Section ScriptFacts.

Variable raises : site -> bool.

Lemma behaves_ret {A} (H U : exn -> Prop) (a : A) : behaves H U (ret a).
Proof. intros w. simpl. split; [reflexivity |]. exists []. now rewrite app_nil_r. Qed.

Lemma behaves_throw {A} (H U : exn -> Prop) (e : exn) :
  U e -> behaves H U (@throw A e).
Proof.
  intros He w. simpl. split; [reflexivity |]. split; [exact He |].
  exists []. split; [reflexivity | constructor].
Qed.

Lemma behaves_call (H U : exn -> Prop) (s : site) (effect : world -> world) :
  keeps_files_and_log effect -> U (LibraryError s) ->
  behaves H U (call raises s effect).
Proof.
  intros Heff Hs w. unfold call. destruct (raises s).
  - now apply behaves_throw.
  - destruct (Heff w) as [-> ->]. split; [reflexivity |].
    exists []. now rewrite app_nil_r.
Qed.

Lemma behaves_getitem (H U : exn -> Prop) (d : gmap string string) (key : string) :
  U (KeyError key) -> behaves H U (getitem d key).
Proof.
  intros Hk. unfold getitem. destruct (d !! key).
  - apply behaves_ret.
  - now apply behaves_throw.
Qed.

Lemma behaves_bind {A B} (H U : exn -> Prop) (m : M A) (k : A -> M B) :
  behaves H U m -> (forall a, behaves H U (k a)) -> behaves H U (bind m k).
Proof.
  intros Hm Hk w. unfold bind. specialize (Hm w).
  destruct (m w) as [a w1 | e w1]; [| exact Hm].
  destruct Hm as (Hf & l1 & Hl1 & HH1). specialize (Hk a w1).
  destruct (k a w1) as [b w2 | e w2].
  - destruct Hk as (Hf2 & l2 & Hl2 & HH2). split; [congruence |].
    exists (l1 ++ l2). split; [rewrite Hl2, Hl1; now rewrite app_assoc |].
    now apply Forall_app.
  - destruct Hk as (Hf2 & He & l2 & Hl2 & HH2). split; [congruence |].
    split; [exact He |]. exists (l1 ++ l2).
    split; [rewrite Hl2, Hl1; now rewrite !app_assoc |].
    now apply Forall_app.
Qed.

Lemma behaves_try {A} (H U Ub : exn -> Prop) (body handler : M A) :
  behaves H Ub body -> (forall e, Ub e -> H e) -> behaves H U handler ->
  behaves H U (try_except body handler).
Proof.
  intros Hb Hsub Hh w. unfold try_except. specialize (Hb w).
  destruct (body w) as [a w1 | e w1]; [exact Hb |].
  destruct Hb as (Hf & He & l1 & Hl1 & HH1). specialize (Hh w1).
  assert (HH : Forall H (l1 ++ [e])).
  { apply Forall_app. split; [exact HH1 |]. repeat constructor. now apply Hsub. }
  destruct (handler w1) as [b w2 | e2 w2].
  - destruct Hh as (Hf2 & l2 & Hl2 & HH2). split; [congruence |].
    exists ((l1 ++ [e]) ++ l2).
    split; [rewrite Hl2, Hl1; now rewrite !app_assoc |].
    now apply Forall_app.
  - destruct Hh as (Hf2 & He2 & l2 & Hl2 & HH2). split; [congruence |].
    split; [exact He2 |]. exists ((l1 ++ [e]) ++ l2).
    split; [rewrite Hl2, Hl1; now rewrite !app_assoc |].
    now apply Forall_app.
Qed.

Lemma keeps_id : keeps_files_and_log id.
Proof. now intros w. Qed.
Lemma keeps_new_presentation : keeps_files_and_log new_presentation.
Proof. now intros w. Qed.
Lemma keeps_add_slide : keeps_files_and_log add_slide.
Proof. now intros w. Qed.
Lemma keeps_add_items its : keeps_files_and_log (add_items its).
Proof. now intros w. Qed.
Lemma keeps_set_df_hc s : keeps_files_and_log (set_df_hc s).
Proof. now intros w. Qed.

Ltac behaves_step :=
  first
    [ apply behaves_ret
    | apply behaves_call;
      [ first [ apply keeps_id | apply keeps_new_presentation
              | apply keeps_add_slide | apply keeps_add_items
              | apply keeps_set_df_hc ]
      | ]
    | apply behaves_getitem
    | apply behaves_bind; [| intros ?] ].

Lemma demo_picture_behaves :
  behaves demo_handled any_exn (demo_picture raises).
Proof.
  unfold demo_picture.
  apply behaves_try with (Ub := demo_handled).
  - repeat behaves_step; unfold demo_handled; auto.
  - auto.
  - repeat behaves_step. exact I.
Qed.

Lemma demo_slide_behaves (n : nat) :
  behaves demo_handled any_exn (demo_slide raises n).
Proof. unfold demo_slide. repeat behaves_step; exact I. Qed.

Lemma prepare_behaves (i : nat) (d : gmap string string) :
  behaves superstore_handled any_exn (prepare raises i d).
Proof.
  unfold prepare. apply behaves_bind; [apply behaves_getitem; exact I |].
  intros ty. destruct (String.prefix "pivot" ty).
  - apply behaves_bind.
    + unfold select_rows. apply behaves_try
        with (Ub := fun e => e = KeyError "filters" \/ e = LibraryError (Query i)).
      * repeat behaves_step; auto.
      * intros e [-> | ->]; unfold superstore_handled; eauto.
      * repeat behaves_step. exact I.
    + intros _. repeat behaves_step; exact I.
  - repeat (match goal with |- context [if ?b then _ else _] => destruct b end);
      repeat behaves_step; exact I.
Qed.

Lemma render_behaves (i : nat) (d : gmap string string) :
  behaves superstore_handled any_exn (render raises i d).
Proof.
  unfold render. apply behaves_bind; [apply behaves_getitem; exact I |].
  intros ty. destruct (render_dispatch ty) as [[monthly | | |] |].
  - repeat behaves_step; exact I.
  - repeat behaves_step; exact I.
  - apply behaves_bind; [apply behaves_getitem; exact I |]. intros title.
    apply behaves_bind; [repeat behaves_step; exact I |]. intros _.
    apply behaves_try with (Ub := fun e => e = LibraryError Boxplot).
    + repeat behaves_step. reflexivity.
    + intros e ->. now left.
    + repeat behaves_step. exact I.
  - apply behaves_bind; [apply behaves_getitem; exact I |]. intros title.
    apply behaves_bind; [repeat behaves_step; exact I |]. intros _.
    destruct (d !! "sub_title"%string); repeat behaves_step; exact I.
  - apply behaves_ret.
Qed.

Lemma slide_loop_behaves (order : list (gmap string string)) (i : nat) :
  behaves superstore_handled any_exn (slide_loop raises i order).
Proof.
  revert i. induction order as [| d rest IH]; intros i; simpl.
  - apply behaves_ret.
  - apply behaves_bind; [| intros _; apply IH].
    unfold slide_body.
    apply behaves_bind; [apply prepare_behaves |]. intros _.
    apply behaves_bind; [| intros _; apply render_behaves].
    repeat behaves_step. exact I.
Qed.


Variable package_tail : list (list item) -> list Byte.byte.

Lemma saves_save (H : exn -> Prop) (path : string) :
  saves package_tail H path (save raises package_tail path).
Proof.
  intros w. unfold save, call. destruct (raises Save); simpl; [reflexivity |].
  split; [reflexivity |]. exists []. now rewrite app_nil_r.
Qed.

Lemma saves_bind {A B} (H U : exn -> Prop) (path : string)
    (m : M A) (k : A -> M B) :
  behaves H U m -> (forall a, saves package_tail H path (k a)) ->
  saves package_tail H path (bind m k).
Proof.
  intros Hm Hk w. unfold bind. specialize (Hm w).
  destruct (m w) as [a w1 | e w1]; [| apply Hm].
  destruct Hm as (Hf & l1 & Hl1 & HH1). specialize (Hk a w1).
  destruct (k a w1) as [b w2 | e w2]; [| congruence].
  destruct Hk as (Hf2 & l2 & Hl2 & HH2). split; [congruence |].
  exists (l1 ++ l2). split; [rewrite Hl2, Hl1; now rewrite app_assoc |].
  now apply Forall_app.
Qed.

Lemma run_demo_saves :
  saves package_tail demo_handled demo_path (run_demo raises package_tail).
Proof.
  unfold run_demo.
  repeat (apply saves_bind with (U := any_exn);
          [ first [ apply demo_slide_behaves | apply demo_picture_behaves
                  | repeat behaves_step; exact I ]
          | intros _ ]).
  apply saves_save.
Qed.

Lemma run_superstore_saves (order : list (gmap string string)) :
  saves package_tail superstore_handled superstore_path
    (run_superstore raises package_tail order).
Proof.
  unfold run_superstore.
  repeat (apply saves_bind with (U := any_exn);
          [ first [ apply slide_loop_behaves | repeat behaves_step; exact I ]
          | intros _ ]).
  apply saves_save.
Qed.

End ScriptFacts.

(** The runs depend on the oracle only through its values. *)
Section Extensionality.

Variables r1 r2 : site -> bool.
Hypothesis same_oracle : forall s, r1 s = r2 s.

Lemma call_ext (s : site) (effect : world -> world) (w : world) :
  call r1 s effect w = call r2 s effect w.
Proof. unfold call. now rewrite (same_oracle s). Qed.

Lemma bind_ext {A B} (m1 m2 : M A) (k1 k2 : A -> M B) (w : world) :
  (forall w, m1 w = m2 w) -> (forall a w, k1 a w = k2 a w) ->
  bind m1 k1 w = bind m2 k2 w.
Proof. intros Hm Hk. unfold bind. rewrite Hm. destruct (m2 w); auto. Qed.

Lemma try_ext {A} (b1 b2 h1 h2 : M A) (w : world) :
  (forall w, b1 w = b2 w) -> (forall w, h1 w = h2 w) ->
  try_except b1 h1 w = try_except b2 h2 w.
Proof. intros Hb Hh. unfold try_except. rewrite Hb. destruct (b2 w); auto. Qed.

Ltac ext_step :=
  first
    [ reflexivity
    | apply call_ext
    | apply bind_ext; [intros ? | intros ? ?]
    | apply try_ext; intros ? ].


Lemma prepare_ext (i : nat) (d : gmap string string) (w : world) :
  prepare r1 i d w = prepare r2 i d w.
Proof.
  unfold prepare, select_rows. apply bind_ext; [reflexivity | intros ty w'].
  repeat (match goal with |- context [if ?b then _ else _] => destruct b end);
    repeat ext_step.
Qed.

Lemma render_ext (i : nat) (d : gmap string string) (w : world) :
  render r1 i d w = render r2 i d w.
Proof.
  unfold render. apply bind_ext; [reflexivity | intros ty w'].
  destruct (render_dispatch ty) as [[monthly | | |] |]; repeat ext_step.
  destruct (d !! "sub_title"%string); repeat ext_step.
Qed.



End Extensionality.






(** X4, the rows of a pivot slide: those selected by the ['filters'] query
    when the entry has one and the query does not raise, all rows
    otherwise. *)
Theorem query_falls_back_to_all_rows :
  forall (raises : site -> bool) (i : nat) (d : gmap string string) (w : world),
    raises (CopyData i) = false ->
    exists w',
      select_rows raises i d w = Ok tt w' /\
      df_hc w' = match d !! "filters"%string with
                 | Some q => if raises (Query i) then Unfiltered else Filtered q
                 | None => Unfiltered
                 end.
Proof.
  intros raises i d w Hcopy.
  unfold select_rows, try_except, bind, getitem, call, throw, ret.
  destruct (d !! "filters"%string) as [q |].
  - destruct (raises (Query i)); rewrite ?Hcopy; eexists; split; reflexivity.
  - rewrite Hcopy. eexists. split; reflexivity.
Qed.

Lemma query_fallback_witness :
  exists w',
    select_rows (fun _ => false) 1 (slide_order !!! 1) empty_world = Ok tt w' /\
    df_hc w' = Unfiltered.
Proof.
  destruct (query_falls_back_to_all_rows (fun _ => false) 1
              (slide_order !!! 1) empty_world eq_refl) as (w' & Hrun & Hdf).
  exists w'. split; [exact Hrun |]. rewrite Hdf. vm_compute. reflexivity.
Defined.

(** X3: a run that an exception ends has written no file: [prs.save] is the
    last statement of both scripts. *)
Theorem interrupted_run_writes_nothing :
  (forall (raises : site -> bool) (tail : list (list item) -> list Byte.byte)
          (w w' : world) (e : exn),
      run_demo raises tail w = Raise e w' -> files w' = files w) /\
  (forall (raises : site -> bool) (tail : list (list item) -> list Byte.byte)
          (order : list (gmap string string)) (w w' : world) (e : exn),
      run_superstore raises tail order w = Raise e w' -> files w' = files w).
Proof.
  split.
  - intros raises tail w w' e Hrun.
    pose proof (run_demo_saves raises tail w) as H.
    now rewrite Hrun in H.
  - intros raises tail order w w' e Hrun.
    pose proof (run_superstore_saves raises tail order w) as H.
    now rewrite Hrun in H.
Qed.

Lemma interrupted_run_witness :
  exists w' e,
    run_superstore (fun s => match s with LoadData => true | _ => false end)
      (fun _ => []) slide_order empty_world = Raise e w' /\
    files w' = files empty_world.
Proof.
  destruct (run_superstore
              (fun s => match s with LoadData => true | _ => false end)
              (fun _ => []) slide_order empty_world) as [[] w' | e w'] eqn:E;
    [vm_compute in E; discriminate E |].
  destruct interrupted_run_writes_nothing as [_ H].
  exists w', e. split; [reflexivity |]. exact (H _ _ _ _ _ _ E).
Defined.




(** ** Cell borders *)

Section BorderFacts.
Import Spark Border.

Lemma has_tag_true (t : string) (e : element) : has_tag t e = true <-> tag e = t.
Proof. unfold has_tag. apply String.eqb_eq. Qed.

Lemma has_tag_false (t : string) (e : element) : has_tag t e = false <-> tag e <> t.
Proof. unfold has_tag. apply String.eqb_neq. Qed.

Lemma find_remove_all (t : string) (tags : list string) (l : list element) :
  In t tags -> find t (remove_all tags l) = None.
Proof.
  intros Hin. unfold find, remove_all.
  induction l as [| x l IH]; simpl; [reflexivity |].
  destruct (existsb (fun t0 => has_tag t0 x) tags) eqn:E; simpl; [exact IH |].
  destruct (has_tag t x) eqn:Ht; [| exact IH].
  exfalso. rewrite <- not_true_iff_false in E. apply E.
  apply existsb_exists. now exists t.
Qed.

(** Inserting an element whose tag is not [t] does not change what
    [find t] returns. *)
Lemma find_insert_before_tag_other (t s : string) (e : element) (l : list element) :
  has_tag t e = false ->
  find t (insert_before_tag s e l) = find t l.
Proof.
  intros He. unfold find. induction l as [| x l IH]; simpl.
  - now rewrite He.
  - destruct (has_tag s x); simpl.
    + now rewrite He.
    + destruct (has_tag t x); [reflexivity | exact IH].
Qed.

Lemma find_insert_before_tag_fresh (t s : string) (e : element) (l : list element) :
  has_tag t e = true -> find t l = None ->
  find t (insert_before_tag s e l) = Some e.
Proof.
  intros He. unfold find. induction l as [| x l IH]; simpl.
  - now rewrite He.
  - destruct (has_tag t x) eqn:Hx; [discriminate |]. intros Hl.
    destruct (has_tag s x); simpl.
    + now rewrite He.
    + rewrite Hx. now apply IH.
Qed.

Lemma find_app (t : string) (l k : list element) :
  find t (l ++ k) = match find t l with Some e => Some e | None => find t k end.
Proof.
  unfold find. induction l as [| x l IH]; simpl; [reflexivity |].
  destruct (has_tag t x); [reflexivity | exact IH].
Qed.

Lemma find_insert_element_before_other (t : string) (e : element)
    (succ : list string) (l : list element) :
  has_tag t e = false ->
  find t (insert_element_before e succ l) = find t l.
Proof.
  intros He. induction succ as [| s succ IH]; simpl.
  - rewrite find_app. destruct (find t l); [reflexivity |].
    unfold find. simpl. now rewrite He.
  - destruct (existsb (has_tag s) l); [| exact IH].
    now apply find_insert_before_tag_other.
Qed.

Lemma find_insert_element_before_fresh (t : string) (e : element)
    (succ : list string) (l : list element) :
  has_tag t e = true -> find t l = None ->
  find t (insert_element_before e succ l) = Some e.
Proof.
  intros He Hl. induction succ as [| s succ IH]; simpl.
  - rewrite find_app, Hl. unfold find. simpl. now rewrite He.
  - destruct (existsb (has_tag s) l); [| exact IH].
    now apply find_insert_before_tag_fresh.
Qed.

Lemma find_filter_none (t : string) (P : element -> bool) (l : list element) :
  find t l = None -> find t (List.filter P l) = None.
Proof.
  unfold find. induction l as [| x l IH]; simpl; [reflexivity |].
  destruct (has_tag t x) eqn:Hx; [discriminate |]. intros Hl.
  destruct (P x); simpl; [rewrite Hx |]; now apply IH.
Qed.

Lemma find_update_first_same (t : string) (f : element -> element)
    (l : list element) :
  (forall x, tag (f x) = tag x) ->
  find t (update_first t f l) = f <$> find t l.
Proof.
  intros Hf. unfold find. induction l as [| x l IH]; simpl; [reflexivity |].
  destruct (has_tag t x) eqn:Hx; simpl.
  - assert (has_tag t (f x) = true) as ->; [| reflexivity].
    apply has_tag_true. rewrite Hf. now apply has_tag_true.
  - rewrite Hx. exact IH.
Qed.

Lemma find_update_first_other (t s : string) (f : element -> element)
    (l : list element) :
  (forall x, tag (f x) = tag x) ->
  find t (update_first s f l) = (if String.eqb s t then f else id) <$> find t l.
Proof.
  intros Hf. destruct (String.eqb_spec s t) as [-> | Hne].
  - now apply find_update_first_same.
  - unfold find. induction l as [| x l IH]; simpl; [reflexivity |].
    destruct (has_tag s x) eqn:Hs; simpl.
    + apply has_tag_true in Hs.
      assert (has_tag t (f x) = false) as ->.
      { apply has_tag_false. rewrite Hf. congruence. }
      assert (has_tag t x = false) as ->.
      { apply has_tag_false. congruence. }
      clear IH. induction l as [| y l IH]; simpl; [reflexivity |].
      destruct (has_tag t y); [reflexivity | exact IH].
    + destruct (has_tag t x); [reflexivity | exact IH].
Qed.


(** *** Hexadecimal colours *)

Lemma parse_format_byte (n : nat) :
  n < 256 ->
  parse_byte (hex_char (n / 16)) (hex_char (n mod 16)) = Some n.
Proof.
  intros Hn.
  assert (Hall : forallb (fun k =>
            match parse_byte (hex_char (k / 16)) (hex_char (k mod 16)) with
            | Some m => Nat.eqb m k
            | None => false
            end) (seq 0 256) = true) by (vm_compute; reflexivity).
  rewrite forallb_forall in Hall.
  specialize (Hall n ltac:(apply in_seq; lia)).
  destruct (parse_byte _ _) as [m |]; [| discriminate].
  apply Nat.eqb_eq in Hall. now subst.
Qed.

Lemma hex_val_lt (c : ascii) (d : nat) : hex_val c = Some d -> d < 16.
Proof.
  unfold hex_val. intros H.
  repeat match type of H with
         | (if ?b then _ else _) = _ => destruct b eqn:?
         end; try discriminate; injection H as <-;
    repeat match goal with
           | E : (_ && _) = true |- _ => apply andb_true_iff in E as [? ?]
           | E : (_ <=? _) = true |- _ => apply Nat.leb_le in E
           end; lia.
Qed.

Lemma parse_byte_lt (hi lo : ascii) (n : nat) :
  parse_byte hi lo = Some n -> n < 256.
Proof.
  unfold parse_byte. intros H.
  destruct (hex_val hi) as [h |] eqn:Eh; [| discriminate].
  destruct (hex_val lo) as [l |] eqn:El; [| discriminate].
  simpl in H. injection H as <-.
  apply hex_val_lt in Eh, El. lia.
Qed.

(** A colour read from an [a:srgbClr] is read back after it is written. *)
Lemma rgb_string_roundtrip (v : string) (c : RGBColor) :
  rgb_from_string v = Some c -> rgb_from_string (rgb_to_string c) = Some c.
Proof.
  intros H. unfold rgb_from_string in H.
  destruct v as [| r1 [| r2 [| g1 [| g2 [| b1 [| b2 [| ? ?]]]]]]];
    try discriminate.
  destruct (parse_byte r1 r2) as [r |] eqn:Er; [| discriminate].
  destruct (parse_byte g1 g2) as [g |] eqn:Eg; [| discriminate].
  destruct (parse_byte b1 b2) as [b |] eqn:Eb; [| discriminate].
  simpl in H. injection H as <-.
  apply parse_byte_lt in Er, Eg, Eb.
  change (rgb_to_string (RGB r g b))
    with (String (hex_char (r / 16)) (String (hex_char (r mod 16))
           (String (hex_char (g / 16)) (String (hex_char (g mod 16))
              (String (hex_char (b / 16)) (String (hex_char (b mod 16))
                 EmptyString)))))).
  unfold rgb_from_string.
  now rewrite !parse_format_byte.
Qed.

(** *** Substrings *)

Lemma prefix_refl (s : string) : String.prefix s s = true.
Proof.
  induction s as [| c s IH]; simpl; [reflexivity |].
  destruct (Ascii.ascii_dec c c); [exact IH | contradiction].
Qed.

Lemma is_substring_refl (s : string) : is_substring s s = true.
Proof.
  destruct s as [| c s]; [reflexivity |].
  cbn [is_substring]. now rewrite prefix_refl.
Qed.

Lemma is_substring_app_r (s p q : string) :
  is_substring s q = true -> is_substring s (p +:+ q) = true.
Proof.
  intros H. induction p as [| c p IH]; [exact H |].
  change (String c p +:+ q) with (String c (p +:+ q)).
  cbn [is_substring]. rewrite IH. apply orb_true_r.
Qed.

(** The Clark name of a border contains its local name. *)
Lemma qn_contains_local_name (lines t : string) :
  qn lines = Some t -> is_substring (local_name lines) t = true.
Proof.
  unfold qn, local_name. intros H.
  destruct (split_colon lines) as [| pfx [| loc [| ? ?]]]; try discriminate.
  destruct (assoc pfx nsmap) as [uri |]; [| discriminate].
  simpl in H. injection H as <-. simpl last. simpl default.
  do 3 apply is_substring_app_r. apply is_substring_refl.
Qed.

(** *** Frames of the list operations *)

Lemma filter_implied (P Q : element -> bool) (l : list element) :
  (forall e, P e = true -> Q e = true) ->
  List.filter P (List.filter Q l) = List.filter P l.
Proof.
  intros H. induction l as [| x l IH]; simpl; [reflexivity |].
  destruct (Q x) eqn:Eq; simpl.
  - destruct (P x); now rewrite IH.
  - destruct (P x) eqn:Ep; [| exact IH].
    apply H in Ep. congruence.
Qed.

Lemma filter_insert_before_tag (P : element -> bool) (s : string)
    (e : element) (l : list element) :
  P e = false ->
  List.filter P (insert_before_tag s e l) = List.filter P l.
Proof.
  intros He. induction l as [| x l IH]; simpl.
  - now rewrite He.
  - destruct (has_tag s x); simpl.
    + now rewrite He.
    + now rewrite IH.
Qed.

Lemma filter_insert_element_before (P : element -> bool) (e : element)
    (succ : list string) (l : list element) :
  P e = false ->
  List.filter P (insert_element_before e succ l) = List.filter P l.
Proof.
  intros He. induction succ as [| s succ IH]; simpl.
  - rewrite List.filter_app. simpl. rewrite He. apply app_nil_r.
  - destruct (existsb (has_tag s) l); [| exact IH].
    now apply filter_insert_before_tag.
Qed.

Lemma filter_update_first (P : element -> bool) (t : string)
    (f : element -> element) (l : list element) :
  (forall x, has_tag t x = true -> P x = false /\ P (f x) = false) ->
  List.filter P (update_first t f l) = List.filter P l.
Proof.
  intros H. induction l as [| x l IH]; simpl; [reflexivity |].
  destruct (has_tag t x) eqn:Ht; simpl.
  - destruct (H x Ht) as [-> ->]. reflexivity.
  - now rewrite IH.
Qed.

Lemma untouched_not_fill (bs : list string) (e : element) :
  untouched bs e = true -> is_fill e = false.
Proof.
  unfold untouched. intros H. apply andb_true_iff in H as [H _].
  now apply negb_true_iff in H.
Qed.

Lemma fill_is_touched (bs : list string) (t : string) (e : element) :
  In t fill_tags -> has_tag t e = true -> untouched bs e = false.
Proof.
  intros Hin Ht. unfold untouched.
  assert (is_fill e = true) as ->; [| reflexivity].
  apply existsb_exists. now exists t.
Qed.

Lemma filter_get_or_change_to (bs : list string) (t : string)
    (l : list element) :
  In t fill_tags ->
  List.filter (untouched bs) (get_or_change_to t l)
  = List.filter (untouched bs) l.
Proof.
  intros Hin. unfold get_or_change_to. destruct (find t l); [reflexivity |].
  rewrite filter_insert_element_before.
  - unfold remove_all. apply filter_implied. intros e He.
    apply untouched_not_fill in He. unfold is_fill in He. now rewrite He.
  - apply (fill_is_touched bs t); [exact Hin |]. apply String.eqb_refl.
Qed.

Lemma filter_set_fore_color_rgb (bs : list string) (c : RGBColor)
    (l : list element) :
  List.filter (untouched bs) (set_fore_color_rgb c l)
  = List.filter (untouched bs) l.
Proof.
  unfold set_fore_color_rgb. apply filter_update_first. intros x Hx.
  split.
  - apply (fill_is_touched bs (a_ "solidFill")); [vm_compute; tauto | exact Hx].
  - apply (fill_is_touched bs (a_ "solidFill")); [vm_compute; tauto |].
    unfold has_tag in *. exact Hx.
Qed.

Lemma filter_apply_borders (P : element -> bool) (bs : list string)
    (line_type border_color border_width : string) (l l' : list element) :
  (forall b e, In b bs -> P e = true ->
     is_substring (local_name b) (tag e) = false) ->
  apply_borders bs line_type border_color border_width l = Some l' ->
  List.filter P l' = List.filter P l.
Proof.
  revert l. induction bs as [| b bs IH]; intros l HP H; simpl in H.
  - now injection H as <-.
  - destruct (border_line b line_type border_color border_width)
      as [ln |] eqn:Eln; [| discriminate].
    simpl in H. apply IH in H; [| intros; apply HP; simpl; auto].
    rewrite H, List.filter_app. simpl.
    assert (P ln = false) as ->.
    { destruct (P ln) eqn:E; [| reflexivity].
      apply (HP b) in E; [| now left].
      unfold border_line in Eln.
      destruct (qn b) as [t |] eqn:Et; [| discriminate].
      simpl in Eln. injection Eln as <-. simpl in E.
      apply qn_contains_local_name in Et. congruence. }
    rewrite app_nil_r. apply filter_implied. intros e He.
    apply negb_true_iff. apply (HP b); [now left | exact He].
Qed.

(** X2, the frame of [_cell_border]: the text body and the attributes of
    [a:tcPr] are kept, and so are, in their order, the children of
    [a:tcPr] that are not fill elements and whose tag contains the local
    name of none of the listed borders. *)
Theorem cell_border_keeps_unrelated_children :
  forall (c c' : cell) (borders : list string)
         (line_type border_color border_width : string),
    _cell_border c borders line_type border_color border_width = Some c' ->
    txBody c' = txBody c /\
    tcPr_attrib c' = tcPr_attrib c /\
    List.filter (untouched borders) (tcPr c')
    = List.filter (untouched borders) (tcPr c).
Proof.
  intros c c' borders lt bc bw H. unfold _cell_border in H.
  assert (Hsub : forall b e, In b borders -> untouched borders e = true ->
            is_substring (local_name b) (tag e) = false).
  { intros b e Hb He. unfold untouched in He.
    apply andb_true_iff in He as [_ He]. rewrite forallb_forall in He.
    apply negb_true_iff. now apply He. }
  destruct (fill_type (tcPr c)) as [[] |];
    try (simpl in H;
         destruct (apply_borders borders lt bc bw (tcPr c)) as [l |] eqn:E;
         [| discriminate]; simpl in H; injection H as <-; simpl;
         repeat split; eapply filter_apply_borders; eassumption).
  destruct (fore_color_rgb (tcPr c)) as [rgb |]; [| discriminate].
  simpl in H.
  destruct (apply_borders borders lt bc bw (background (tcPr c)))
    as [l |] eqn:E; [| discriminate].
  simpl in H. injection H as <-. simpl. repeat split.
  rewrite filter_set_fore_color_rgb.
  unfold solid. rewrite filter_get_or_change_to by (vm_compute; tauto).
  rewrite (filter_apply_borders _ _ _ _ _ _ _ Hsub E).
  unfold background. apply filter_get_or_change_to. vm_compute. tauto.
Qed.

(** *** The fill is restored *)

Lemma find_has_tag (t : string) (l : list element) (e : element) :
  find t l = Some e -> has_tag t e = true.
Proof. intros H. now apply List.find_some in H as [_ ?]. Qed.

Lemma fill_type_solid (l : list element) (e : element) :
  find (a_ "noFill") l = None -> find (a_ "solidFill") l = Some e ->
  fill_type l = Some SOLID.
Proof.
  intros Hno Hso. unfold fill_type, fill_tags.
  cbn [map first_child_found_in]. rewrite Hno, Hso. simpl.
  apply find_has_tag in Hso. apply has_tag_true in Hso.
  unfold has_tag. rewrite Hso. reflexivity.
Qed.

Lemma solid_fill_has_no_noFill (l : list element) :
  fill_type l = Some SOLID -> find (a_ "noFill") l = None.
Proof.
  unfold fill_type, fill_tags. cbn [map first_child_found_in].
  destruct (find (a_ "noFill") l) as [e |] eqn:E; [| reflexivity].
  apply find_has_tag in E. cbn [mbind option_bind]. rewrite E.
  intros H. discriminate H.
Qed.

Lemma fore_color_of_painted (l : list element) (a : list (string * string))
    (v : string) :
  find (a_ "solidFill") l
  = Some (Element (a_ "solidFill") a
            [Element (a_ "srgbClr") [("val"%string, v)] []]) ->
  fore_color_rgb l = rgb_from_string v.
Proof. intros H. unfold fore_color_rgb. rewrite H. reflexivity. Qed.

Lemma apply_borders_documented (bs : list string)
    (line_type border_color border_width : string) (t : string)
    (l : list element) :
  Forall (fun b => In b documented_borders) bs ->
  In t fill_tags -> find t l = None ->
  exists l',
    apply_borders bs line_type border_color border_width l = Some l' /\
    find t l' = None.
Proof.
  intros Hbs Ht. revert l.
  induction Hbs as [| b bs Hb _ IH]; intros l Hl; simpl.
  - now exists l.
  - assert (Hqn : exists t', qn b = Some t' /\ ~ In t' fill_tags).
    { simpl in Hb. destruct Hb as [<- | [<- | [<- | [<- | []]]]];
        eexists; (split; [reflexivity |]); vm_compute;
        intuition discriminate. }
    destruct Hqn as (t' & Hq & Hnot).
    unfold border_line. rewrite Hq. simpl. apply IH.
    rewrite find_app, (find_filter_none _ _ _ Hl).
    unfold find. simpl.
    destruct (has_tag t _) eqn:E; [| reflexivity].
    apply has_tag_true in E. simpl in E. now subst.
Qed.

(** X1, the fill part of the behaviour of [_cell_border]: on a cell with a solid
    fill of RGB colour [rgb] and for borders among the four documented
    names, the call returns a cell that again has a solid fill of colour
    [rgb]. *)
Theorem cell_border_restores_solid_fill :
  forall (c : cell) (borders : list string)
         (line_type border_color border_width : string) (rgb : RGBColor),
    fill_type (tcPr c) = Some SOLID ->
    fore_color_rgb (tcPr c) = Some rgb ->
    Forall (fun b => In b documented_borders) borders ->
    exists c',
      _cell_border c borders line_type border_color border_width = Some c' /\
      fill_type (tcPr c') = Some SOLID /\
      fore_color_rgb (tcPr c') = Some rgb.
Proof.
  intros c borders lt bc bw rgb Hty Hrgb Hbs.
  unfold _cell_border. rewrite Hty, Hrgb. simpl.
  pose proof (solid_fill_has_no_noFill _ Hty) as Hno.
  assert (Hroundtrip : rgb_from_string (rgb_to_string rgb) = Some rgb).
  { unfold fore_color_rgb in Hrgb.
    destruct (find (a_ "solidFill") (tcPr c)) as [sf |]; [| discriminate].
    cbn [mbind option_bind] in Hrgb.
    destruct (first_child_found_in color_tags (children sf)) as [clr |];
      [| discriminate].
    cbn [mbind option_bind] in Hrgb.
    destruct (has_tag (a_ "srgbClr") clr); [| discriminate].
    destruct (assoc "val" (attrib clr)) as [v |]; [| discriminate].
    cbn [mbind option_bind] in Hrgb. eapply rgb_string_roundtrip, Hrgb. }
  assert (H0 : find (a_ "solidFill") (background (tcPr c)) = None).
  { unfold background, get_or_change_to. rewrite Hno.
    rewrite find_insert_element_before_other by reflexivity.
    apply find_remove_all. vm_compute. tauto. }
  destruct (apply_borders_documented borders lt bc bw (a_ "solidFill")
              (background (tcPr c)) Hbs ltac:(vm_compute; tauto) H0)
    as (l & Hl & Hfind).
  rewrite Hl. simpl. eexists. split; [reflexivity |]. simpl.
  set (fresh := Element (a_ "solidFill") [] []).
  set (paint := fun sf : element =>
                  Element (tag sf) (attrib sf) (set_srgbClr rgb (children sf))).
  assert (Hsolid : solid l = insert_element_before fresh fill_successors
                             (remove_all fill_tags l)).
  { unfold solid, get_or_change_to. now rewrite Hfind. }
  assert (Hnew : find (a_ "solidFill") (set_fore_color_rgb rgb (solid l))
                 = Some (paint fresh)).
  { unfold set_fore_color_rgb. fold paint.
    rewrite find_update_first_same by reflexivity.
    rewrite Hsolid, find_insert_element_before_fresh; [reflexivity .. |].
    apply find_remove_all. vm_compute. tauto. }
  split.
  - apply fill_type_solid with (e := paint fresh); [| exact Hnew].
    unfold set_fore_color_rgb. fold paint.
    rewrite find_update_first_other by reflexivity.
    rewrite Hsolid, find_insert_element_before_other by reflexivity.
    rewrite find_remove_all by (vm_compute; tauto). reflexivity.
  - rewrite (fore_color_of_painted _ [] (rgb_to_string rgb) Hnew).
    exact Hroundtrip.
Qed.

Lemma cell_border_frame_witness :
  exists c',
    _cell_border_default bordered_cell ["a:lnB"%string] = Some c' /\
    List.filter (untouched ["a:lnB"%string]) (tcPr c')
    = [Element (a_ "lnL") [("w", "6350")]%string []].
Proof.
  eexists. split; [vm_compute; reflexivity |].
  destruct (cell_border_keeps_unrelated_children bordered_cell _
              ["a:lnB"%string] "solid" "07182D" "12700"
              ltac:(vm_compute; reflexivity)) as (_ & _ & H).
  rewrite H. vm_compute. reflexivity.
Defined.

Lemma cell_border_fill_witness :
  exists c',
    _cell_border bordered_cell ["a:lnB"%string] "solid" "07182D" "12700"
      = Some c' /\
    fill_type (tcPr c') = Some SOLID /\
    fore_color_rgb (tcPr c') = Some (RGB 241 221 157).
Proof.
  apply (cell_border_restores_solid_fill bordered_cell ["a:lnB"%string]
           "solid" "07182D" "12700" (RGB 241 221 157)).
  - vm_compute. reflexivity.
  - vm_compute. reflexivity.
  - constructor; [simpl; tauto | constructor].
Defined.


End BorderFacts.

(** ** The value axis of a sparkbar *)

Section SparkAxis.
Import Num Spark Bounds.








End SparkAxis.

(** ** Shape and bounds of the derived tables *)

Section FrameShape.
Import Num Frame Bounds.

Lemma growth_columns_names (lag : nat) (cols : list (string * list num)) :
  map fst (growth_columns lag cols) = map fst (drop lag cols).
Proof.
  rewrite growth_columns_zip.
  assert (H : length (drop lag cols) <= length cols)
    by (rewrite length_drop; lia).
  revert H. generalize (drop lag cols) as l. intros l. revert cols.
  induction l as [| x l IH]; intros [| y cols] H; simpl in *; try reflexivity;
    try lia.
  f_equal. apply IH. lia.
Qed.

Lemma map_cells_names (f : num -> num) (df : DataFrame) :
  map fst (columns (map_cells f df)) = map fst (columns df).
Proof.
  unfold map_cells. simpl. rewrite map_map. reflexivity.
Qed.

Lemma rectangular_add_totals (df : DataFrame) :
  rectangular df -> rectangular (add_totals df).
Proof.
  unfold rectangular, add_totals. simpl. intros H.
  apply Forall_fmap. eapply Forall_impl; [exact H |].
  intros [n c] Hc. simpl in *. rewrite !length_app. simpl. lia.
Qed.

Lemma rectangular_map_cells (f : num -> num) (df : DataFrame) :
  rectangular df -> rectangular (map_cells f df).
Proof.
  unfold rectangular, map_cells. simpl. intros H.
  apply Forall_fmap. eapply Forall_impl; [exact H |].
  intros [n c] Hc. simpl in *. now rewrite length_map.
Qed.

Lemma rectangular_growth_table (lag : nat) (df : DataFrame) :
  rectangular df -> rectangular (growth_table lag df).
Proof.
  unfold rectangular, growth_table. simpl. intros H.
  rewrite growth_columns_zip. apply Forall_forall. intros [n g] Hin.
  apply elem_of_lookup_zip_with in Hin as (i & [n1 cur] & [n2 prior] & Heq & H1 & H2).
  simpl in Heq. injection Heq as -> ->.
  rewrite Forall_forall in H.
  apply list_elem_of_lookup_2 in H1, H2.
  apply subseteq_drop in H1.
  specialize (H _ H1) as Hc. specialize (H _ H2) as Hp. simpl in *.
  unfold pct_change. rewrite length_zip_with. lia.
Qed.

(** X6: the growth table of a pivot slide has the rows and the columns of the
    sales table rendered above it. *)
Theorem growth_table_matches_sales_table :
  forall pv : DataFrame,
    map fst (columns (df_hc_qoq pv)) = map fst (columns (df_hc pv)) /\
    index (df_hc_qoq pv) = index (df_hc pv) /\
    (rectangular pv -> rectangular (df_hc pv) /\ rectangular (df_hc_qoq pv)).
Proof.
  intros pv. split; [| split].
  - unfold df_hc_qoq, replace_inf100, fillna0.
    rewrite !map_cells_names. unfold growth_table. simpl.
    apply growth_columns_names.
  - reflexivity.
  - intros H.
    assert (Hall : rectangular (df_hc_all pv)).
    { apply rectangular_add_totals, rectangular_map_cells, H. }
    split.
    + unfold rectangular, df_hc, drop_leading in *. simpl in *.
      rewrite Forall_forall in Hall |- *. intros c Hc.
      apply Hall. eapply subseteq_drop, Hc.
    + unfold df_hc_qoq, replace_inf100, fillna0.
      do 2 apply rectangular_map_cells.
      now apply rectangular_growth_table.
Qed.

Lemma growth_table_shape_witness :
  rectangular (df_hc zero_prior_pivot) /\
  rectangular (df_hc_qoq zero_prior_pivot).
Proof.
  apply (growth_table_matches_sales_table zero_prior_pivot).
  unfold rectangular. simpl. repeat constructor.
Defined.

(** *** Bounds of the mix percentages *)

Lemma nonneg_list (l : list num) :
  Forall nonneg l ->
  exists qs, l = map Fin qs /\ Forall (fun q => (0 <= q)%Q) qs.
Proof.
  induction 1 as [| x l Hx _ (qs & -> & Hqs)].
  - exists []. split; [reflexivity | constructor].
  - destruct x as [q | | |]; try contradiction.
    exists (q :: qs). split; [reflexivity | now constructor].
Qed.

Lemma fold_Qplus_ge_acc (l : list Q) (a : Q) :
  Forall (fun q => (0 <= q)%Q) l -> (a <= fold_left Qplus l a)%Q.
Proof.
  revert a. induction l as [| x l IH]; intros a Hl; simpl; [lra |].
  apply Forall_cons in Hl as [Hx Hl]. specialize (IH (a + x)%Q Hl). lra.
Qed.

Lemma fold_Qplus_ge_elem (l : list Q) (a q : Q) :
  Forall (fun q => (0 <= q)%Q) l -> (0 <= a)%Q -> q ∈ l ->
  (q <= fold_left Qplus l a)%Q.
Proof.
  revert a. induction l as [| x l IH]; intros a Hl Ha Hin.
  - now apply elem_of_nil in Hin.
  - apply Forall_cons in Hl as [Hx Hl]. simpl.
    apply elem_of_cons in Hin as [-> | Hin].
    + pose proof (fold_Qplus_ge_acc l (a + x)%Q Hl). lra.
    + apply IH; [assumption | lra | assumption].
Qed.

(** A column of the mix table and the column of sales it is computed
    from. *)
Lemma mix_column_bounds :
  forall (pv mix : DataFrame) (n : string) (m : list num),
    df_hc_mix pv = Some mix ->
    (n, m) ∈ columns mix ->
    exists c total,
      (n, c) ∈ columns (df_hc_all pv) /\
      last c = Some total /\
      length m = length c /\
      (Forall nonneg c -> ~ is_zero total ->
       Forall percentage m /\
       exists t, last m = Some t /\ num_eq t (Fin 100)).
Proof.
  intros pv mix n m Hmix Hin.
  destruct (df_hc_mix_columns pv mix n m Hmix Hin) as (hc & t & Hc & Ht & Hm).
  exists (hc ++ [t]), t. split; [exact Hc |]. split; [apply last_snoc |].
  split; [subst m; now rewrite !length_map |].
  intros Hnn Hnz. apply Forall_app in Hnn as [Hnn _].
  destruct (nonneg_list hc Hnn) as (qs & -> & Hqs).
  rewrite sum_list_Fin in Ht. subst t m. simpl in Hnz.
  assert (Hpos : (0 < qsum qs)%Q).
  { pose proof (fold_Qplus_ge_acc qs 0 Hqs) as H. fold (qsum qs) in H.
    destruct (Qlt_le_dec 0 (qsum qs)) as [? | Hle]; [assumption |].
    exfalso. apply Hnz. lra. }
  assert (Hcell : forall q, (0 <= q)%Q -> (q <= qsum qs)%Q ->
            percentage (fillna (Fin 0)
                          (mul (div (Fin q) (Fin (qsum qs))) (Fin 100)))).
  { intros q H0 H1. simpl.
    destruct (Qeq_bool (qsum qs) 0) eqn:E;
      [apply Qeq_bool_iff in E; contradiction |].
    simpl. split.
    - apply Qmult_le_0_compat; [| lra].
      apply Qle_shift_div_l; [assumption | lra].
    - assert (q / qsum qs <= 1)%Q by (apply Qle_shift_div_r; [assumption | lra]).
      lra. }
  split.
  - rewrite !map_app. apply Forall_app. split.
    + rewrite !map_map. apply Forall_fmap, Forall_forall. intros q Hq.
      apply Hcell.
      * rewrite Forall_forall in Hqs. now apply Hqs.
      * apply (fold_Qplus_ge_elem qs 0 q Hqs); [lra | assumption].
    + repeat constructor. apply Hcell; lra.
  - rewrite !map_app. simpl. eexists. split; [apply last_snoc |].
    destruct (Qeq_bool (qsum qs) 0) eqn:E;
      [apply Qeq_bool_iff in E; contradiction |].
    simpl. field. exact Hnz.
Qed.

(** X7: with sales that are not negative and a total that is not zero, every
    mix percentage lies between 0 and 100 and the Total row holds 100. *)
Theorem mix_percentages_are_within_0_and_100 :
  forall (pv mix : DataFrame) (n : string) (m : list num),
    df_hc_mix pv = Some mix ->
    (n, m) ∈ columns mix ->
    exists c total,
      (n, c) ∈ columns (df_hc_all pv) /\
      last c = Some total /\
      length m = length c /\
      (Forall nonneg c -> ~ is_zero total ->
       Forall percentage m /\
       exists t, last m = Some t /\ num_eq t (Fin 100)).
Proof. exact mix_column_bounds. Qed.

Lemma mix_percentages_witness :
  exists mix m,
    df_hc_mix zero_prior_pivot = Some mix /\
    ("2016-Q4"%string, m) ∈ columns mix /\
    Forall percentage m.
Proof.
  eexists. eexists.
  split; [vm_compute; reflexivity |].
  split; [apply list_elem_of_here |].
  destruct (mix_percentages_are_within_0_and_100 zero_prior_pivot _
              "2016-Q4"%string _ ltac:(vm_compute; reflexivity)
              (list_elem_of_here _ _)) as (c & total & Hc & Ht & _ & Hb).
  vm_compute in Hc.
  repeat (apply elem_of_cons in Hc as [Hc | Hc]; [try discriminate Hc |]);
    [| now apply elem_of_nil in Hc].
  injection Hc as ->. injection Ht as <-.
  apply Hb.
  - repeat constructor; vm_compute; discriminate.
  - vm_compute. discriminate.
Defined.

End FrameShape.

(** ** Slides and keys of the superstore loop *)

Section DeckFacts.
Import Deck.

Section SlideCount.

Variable raises : site -> bool.

Lemma length_removelast_cons (x : list item) (l : list (list item)) :
  length (removelast (x :: l)) = length l.
Proof.
  revert x. induction l as [| y l IH]; intros x; [reflexivity |].
  change (removelast (x :: y :: l)) with (x :: removelast (y :: l)).
  cbn [length]. now rewrite IH.
Qed.

Lemma length_append_last (its : list item) (l : list (list item)) :
  length (append_last its l) = length l.
Proof.
  destruct l as [| x l]; [reflexivity |].
  unfold append_last. rewrite length_app, length_removelast_cons.
  simpl. lia.
Qed.

Lemma keeps_count_ret {A} (a : A) : keeps_count (ret a).
Proof. now intros w. Qed.

Lemma keeps_count_call (s : site) (effect : world -> world) :
  (forall w, length (slides (effect w)) = length (slides w)) ->
  keeps_count (call raises s effect).
Proof. intros H w. unfold call. destruct (raises s); simpl; auto. Qed.

Lemma keeps_count_getitem (d : gmap string string) (key : string) :
  keeps_count (getitem d key).
Proof. intros w. unfold getitem. now destruct (d !! key). Qed.

Lemma keeps_count_bind {A B} (m : M A) (k : A -> M B) :
  keeps_count m -> (forall a, keeps_count (k a)) -> keeps_count (bind m k).
Proof.
  intros Hm Hk w. unfold bind. specialize (Hm w).
  destruct (m w) as [a w1 | e w1]; [| exact Hm].
  specialize (Hk a w1). destruct (k a w1); congruence.
Qed.

Lemma keeps_count_try {A} (body handler : M A) :
  keeps_count body -> keeps_count handler ->
  keeps_count (try_except body handler).
Proof.
  intros Hb Hh w. unfold try_except. specialize (Hb w).
  destruct (body w) as [a w1 | e w1]; [exact Hb |].
  specialize (Hh w1). destruct (handler w1); congruence.
Qed.

Ltac count_step :=
  first
    [ apply keeps_count_ret
    | apply keeps_count_getitem
    | apply keeps_count_call;
      first [ reflexivity
            | intros ?; simpl; apply length_append_last ]
    | apply keeps_count_bind; [| intros ?]
    | apply keeps_count_try ].

Lemma prepare_keeps_count (i : nat) (d : gmap string string) :
  keeps_count (prepare raises i d).
Proof.
  unfold prepare, select_rows.
  apply keeps_count_bind; [apply keeps_count_getitem |]. intros ty.
  repeat (match goal with |- context [if ?b then _ else _] => destruct b end);
    repeat count_step.
Qed.

Lemma render_keeps_count (i : nat) (d : gmap string string) :
  keeps_count (render raises i d).
Proof.
  unfold render.
  apply keeps_count_bind; [apply keeps_count_getitem |]. intros ty.
  destruct (render_dispatch ty) as [[monthly | | |] |]; repeat count_step.
  destruct (d !! "sub_title"%string); repeat count_step.
Qed.

Lemma adds_slides_after {A B} (n : nat) (m : M A) (k : A -> M B) :
  keeps_count m -> (forall a, adds_slides n (k a)) -> adds_slides n (bind m k).
Proof.
  intros Hm Hk w. unfold bind. specialize (Hm w).
  destruct (m w) as [a w1 | e w1]; [| exact I].
  specialize (Hk a w1). destruct (k a w1); [congruence | exact I].
Qed.

Lemma adds_slides_bind {A B} (n1 n2 : nat) (m : M A) (k : A -> M B) :
  adds_slides n1 m -> (forall a, adds_slides n2 (k a)) ->
  adds_slides (n1 + n2) (bind m k).
Proof.
  intros Hm Hk w. unfold bind. specialize (Hm w).
  destruct (m w) as [a w1 | e w1]; [| exact I].
  specialize (Hk a w1). destruct (k a w1); [lia | exact I].
Qed.

Lemma adds_slides_keeps {A} (m : M A) : keeps_count m -> adds_slides 0 m.
Proof.
  intros H w. specialize (H w). destruct (m w); [lia | exact I].
Qed.

Lemma slide_body_adds_one (i : nat) (d : gmap string string) :
  adds_slides 1 (slide_body raises i d).
Proof.
  unfold slide_body.
  apply adds_slides_after; [apply prepare_keeps_count |]. intros _.
  apply (adds_slides_bind 1 0).
  - intros w. unfold call. destruct (raises (AddSlide i)); [exact I |].
    simpl. rewrite length_app. reflexivity.
  - intros _. apply adds_slides_keeps, render_keeps_count.
Qed.

Lemma slide_loop_adds (order : list (gmap string string)) (i : nat) :
  adds_slides (length order) (slide_loop raises i order).
Proof.
  revert i. induction order as [| d rest IH]; intros i; simpl.
  - apply adds_slides_keeps, keeps_count_ret.
  - apply (adds_slides_bind 1 (length rest)).
    + apply slide_body_adds_one.
    + intros _. apply IH.
Qed.

End SlideCount.

(** X8: a superstore run that completes holds one slide for each entry of the
    slide order, whatever the entries are. *)
Theorem deck_has_one_slide_per_entry :
  forall (raises : site -> bool) (tail : list (list item) -> list Byte.byte)
         (order : list (gmap string string)) (w w' : world),
    run_superstore raises tail order w = Ok tt w' ->
    length (slides w') = length order.
Proof.
  intros raises tail order w w'. unfold run_superstore, save, bind, call.
  destruct (raises LoadData); [discriminate |].
  destruct (raises NewPresentation); [discriminate |].
  pose proof (slide_loop_adds raises order 0 (new_presentation (id w))) as H.
  destruct (slide_loop raises 0 order (new_presentation (id w)))
    as [[] w1 | e w1]; [| discriminate].
  destruct (raises Save); [discriminate |].
  intros Heq. injection Heq as <-. simpl in *. exact H.
Qed.

Lemma deck_size_witness :
  exists w',
    run_superstore (fun _ => false) (fun _ => []) slide_order empty_world
      = Ok tt w' /\
    length (slides w') = 14.
Proof.
  destruct (run_superstore (fun _ => false) (fun _ => []) slide_order
              empty_world) as [[] w' | e w'] eqn:E;
    [| vm_compute in E; discriminate E].
  exists w'. split; [reflexivity |].
  exact (deck_has_one_slide_per_entry _ _ _ _ _ E).
Defined.

Lemma slide_body_ext (r1 r2 : site -> bool) (i : nat) (d : gmap string string)
    (w : world) :
  (forall s, r1 s = r2 s) -> slide_body r1 i d w = slide_body r2 i d w.
Proof.
  intros H. unfold slide_body.
  apply bind_ext; [intros; now apply prepare_ext | intros _ ?].
  apply bind_ext; [intros; now apply call_ext | intros _ ?].
  now apply render_ext.
Qed.

(** X9: when no library call fails, one pass of the superstore loop ends
    with [KeyError] for the first key the entry lacks among ['type'] and
    the keys its type needs (['pivot'] then ['title'] for a pivot type,
    ['title'] for the other known types, none for an unknown type), and
    otherwise returns with exactly one slide added; no file is written
    either way.  A missing ['filters'] or ['sub_title'] is never an
    error. *)
Theorem slide_entry_needs_its_keys :
  forall (raises : site -> bool) (i : nat) (d : gmap string string) (w : world),
    (forall s, raises s = false) ->
    match d !! "type"%string with
    | None =>
        exists w', slide_body raises i d w = Raise (KeyError "type") w' /\
                   files w' = files w
    | Some ty =>
        match first_missing d (required_keys ty) with
        | Some k =>
            exists w', slide_body raises i d w = Raise (KeyError k) w' /\
                       files w' = files w
        | None =>
            exists w', slide_body raises i d w = Ok tt w' /\
                       files w' = files w /\
                       length (slides w') = S (length (slides w))
        end
    end.
Proof.
  intros raises i d w Hr.
  rewrite (slide_body_ext raises (fun _ => false) i d w Hr).
  unfold slide_body, prepare, render, select_rows, required_keys,
    first_missing, render_dispatch, getitem, bind, try_except, call, throw, ret.
  destruct (d !! "type"%string) as [ty |] eqn:Ety; simpl.
  2:{ eexists; split; reflexivity. }
  destruct (String.prefix "pivot" ty) eqn:Ep; simpl.
  - destruct (d !! "filters"%string) as [q |] eqn:Ef; simpl;
      destruct (d !! "pivot"%string) as [p |] eqn:Epv; simpl;
      rewrite ?Ety; simpl; rewrite ?Ep; simpl;
      destruct (d !! "title"%string) as [t |] eqn:Et; simpl;
      eexists; repeat split; simpl;
      rewrite ?length_append_last, ?length_app; simpl; lia.
  - destruct (String.eqb ty "top_customers") eqn:E1; simpl;
      [| destruct (String.eqb ty "ship_mode_analysis") eqn:E2; simpl;
         [| destruct (String.eqb ty "transition") eqn:E3; simpl]];
      rewrite ?Ety; simpl; rewrite ?Ep, ?E1, ?E2, ?E3; simpl;
      destruct (d !! "title"%string) as [t |] eqn:Et; simpl;
      try destruct (d !! "sub_title"%string) as [st |] eqn:Est; simpl;
      eexists; repeat split; simpl;
      rewrite ?length_append_last, ?length_app; simpl; lia.
Qed.

Lemma slide_entry_keys_witness :
  exists w',
    slide_body (fun _ => false) 1 entry_without_pivot empty_world
      = Raise (KeyError "pivot") w' /\
    files w' = files empty_world.
Proof.
  exact (slide_entry_needs_its_keys (fun _ => false) 1 entry_without_pivot
           empty_world (fun _ => eq_refl)).
Defined.

(** X10: an entry whose type is none of the known ones is not an error:
    unless [add_slide] itself fails, the pass adds one blank slide, reads
    no other key, calls no other library function and leaves [df_hc] as
    the previous slide left it. *)
Theorem unknown_type_gives_blank_slide :
  forall (raises : site -> bool) (i : nat) (d : gmap string string)
         (ty : string) (w : world),
    d !! "type"%string = Some ty ->
    render_dispatch ty = None ->
    raises (AddSlide i) = false ->
    slide_body raises i d w = Ok tt (add_slide w).
Proof.
  intros raises i d ty w Hty Hnone Hadd.
  unfold slide_body, prepare, render, getitem, bind, call, ret.
  rewrite Hty, Hnone. unfold render_dispatch in Hnone.
  destruct (String.prefix "pivot" ty); [discriminate |].
  destruct (String.eqb ty "top_customers"); [discriminate |].
  destruct (String.eqb ty "ship_mode_analysis"); [discriminate |].
  rewrite Hadd. reflexivity.
Qed.

Lemma unknown_type_witness :
  slide_body (fun _ => false) 0 entry_of_unknown_type empty_world
    = Ok tt (add_slide empty_world).
Proof.
  apply (unknown_type_gives_blank_slide (fun _ => false) 0
           entry_of_unknown_type "summary" empty_world);
    vm_compute; reflexivity.
Defined.

End DeckFacts.

(** ** Table geometry *)

Section TableFacts.
Import Num Frame Spark Table.

Variable Inches : Q -> Z.








End TableFacts.




(** ** The overlay loop of the trend table *)

Section TrendFacts.
Import Num Frame Spark Bounds Table.








Lemma sparkbar_is_Some (data : list num) : data <> [] -> is_Some (sparkbar data).
Proof.
  destruct data as [| x l]; [congruence |]. intros _.
  unfold sparkbar. simpl. eauto.
Qed.


End TrendFacts.



(** ** The plot area of a sparkline *)

Section PlotAreaFacts.
Import Spark Border PlotArea.

Lemma update_first_tags (t : string) (f : element -> element) (l : list element) :
  (forall e, tag (f e) = tag e) ->
  map tag (update_first t f l) = map tag l.
Proof.
  intros Hf. induction l as [| x l IH]; [reflexivity |]. simpl.
  destruct (has_tag t x); simpl; [now rewrite Hf | now rewrite IH].
Qed.

Lemma update_first_twice (t : string) (f : element -> element) (l : list element) :
  (forall e, tag (f e) = tag e) ->
  update_first t f (update_first t f l) = update_first t (fun e => f (f e)) l.
Proof.
  intros Hf. induction l as [| x l IH]; [reflexivity |]. simpl.
  destruct (has_tag t x) eqn:E; simpl.
  - unfold has_tag in *. rewrite Hf, E. reflexivity.
  - rewrite E. now rewrite IH.
Qed.

Lemma update_first_ext (t : string) (f g : element -> element) (l : list element) :
  (forall e, f e = g e) -> update_first t f l = update_first t g l.
Proof.
  intros H. induction l as [| x l IH]; [reflexivity |]. simpl.
  destruct (has_tag t x); [now rewrite H | now rewrite IH].
Qed.

Lemma update_first_absent (t : string) (f : element -> element) (l : list element) :
  List.filter (has_tag t) l = [] -> update_first t f l = l.
Proof.
  induction l as [| x l IH]; [reflexivity |]. simpl.
  destruct (has_tag t x); [discriminate |]. intros H. now rewrite IH.
Qed.

Lemma update_first_app_absent (t : string) (f : element -> element)
    (l k : list element) :
  List.filter (has_tag t) l = [] ->
  update_first t f (l ++ k) = l ++ update_first t f k.
Proof.
  induction l as [| x l IH]; [reflexivity |]. simpl.
  destruct (has_tag t x); [discriminate |]. intros H. now rewrite IH.
Qed.

Lemma filter_tag_update_first (t : string) (f : element -> element)
    (l : list element) :
  (forall e, tag (f e) = tag e) ->
  List.filter (has_tag t) (update_first t f l) =
  match List.filter (has_tag t) l with
  | [] => []
  | e :: rest => f e :: rest
  end.
Proof.
  intros Hf. induction l as [| x l IH]; [reflexivity |]. simpl.
  destruct (has_tag t x) eqn:E; simpl.
  - unfold has_tag in *. now rewrite Hf, E.
  - now rewrite E.
Qed.

Lemma filter_other_update_first (P : element -> bool) (t : string)
    (f : element -> element) (l : list element) :
  (forall e, has_tag t e = true -> P e = false) ->
  (forall e, tag (f e) = tag e) ->
  List.filter P (update_first t f l) = List.filter P l.
Proof.
  intros HP Hf. induction l as [| x l IH]; [reflexivity |]. simpl.
  destruct (has_tag t x) eqn:E; simpl.
  - rewrite (HP x E), (HP (f x)); [reflexivity |].
    unfold has_tag in *. now rewrite Hf.
  - now rewrite IH.
Qed.

Lemma find_filter_tag (t : string) (l : list element) :
  find t l = head (List.filter (has_tag t) l).
Proof.
  unfold find. induction l as [| x l IH]; [reflexivity |]. simpl.
  destruct (has_tag t x); [reflexivity | exact IH].
Qed.

Lemma remove_all_twice (tags : list string) (l : list element) :
  remove_all tags (remove_all tags l) = remove_all tags l.
Proof.
  unfold remove_all. induction l as [| x l IH]; [reflexivity |]. simpl.
  destruct (negb (existsb (fun t => has_tag t x) tags)) eqn:E; simpl;
    [rewrite E; now f_equal | exact IH].
Qed.

Lemma remove_all_removes (tags : list string) (l : list element) :
  Forall (fun e => tag e ∉ tags) (remove_all tags l).
Proof.
  unfold remove_all. apply Forall_forall. intros e He.
  apply list_elem_of_In, filter_In in He as [_ He].
  apply negb_true_iff in He. intros Hin.
  assert (existsb (fun t => has_tag t e) tags = true); [| congruence].
  apply existsb_exists. exists (tag e). split.
  - now apply list_elem_of_In.
  - unfold has_tag. apply String.eqb_refl.
Qed.

Lemma pin_tag (ml : element) : tag (pin ml) = tag ml.
Proof. reflexivity. Qed.

Lemma remove_all_app (tags : list string) (l k : list element) :
  remove_all tags (l ++ k) = remove_all tags l ++ remove_all tags k.
Proof. apply List.filter_app. Qed.

Lemma pin_twice (ml : element) : pin (pin ml) = pin ml.
Proof.
  unfold pin. simpl. f_equal.
  rewrite remove_all_app, remove_all_twice.
  replace (remove_all layout_tags full_area) with (@nil element)
    by (vm_compute; reflexivity).
  now rewrite app_nil_r.
Qed.

Lemma filter_insert_before_tag_fresh (P : element -> bool) (s : string)
    (e : element) (l : list element) :
  P e = true -> List.filter P l = [] ->
  List.filter P (insert_before_tag s e l) = [e].
Proof.
  intros He. induction l as [| x l IH]; simpl.
  - now rewrite He.
  - destruct (P x) eqn:Ex; [discriminate |]. intros Hl.
    destruct (has_tag s x); simpl.
    + rewrite He, Ex, Hl. reflexivity.
    + rewrite Ex. now apply IH.
Qed.

Lemma filter_insert_element_before_fresh (P : element -> bool) (e : element)
    (succ : list string) (l : list element) :
  P e = true -> List.filter P l = [] ->
  List.filter P (insert_element_before e succ l) = [e].
Proof.
  intros He Hl. induction succ as [| s succ IH]; simpl.
  - rewrite List.filter_app, Hl. simpl. now rewrite He.
  - destruct (existsb (has_tag s) l); [| exact IH].
    now apply filter_insert_before_tag_fresh.
Qed.

Lemma has_manualLayout (l : list element) :
  exists ml rest,
    List.filter (has_tag (c_ "manualLayout")) (get_or_add_manualLayout l)
      = ml :: rest /\
    (List.filter (has_tag (c_ "manualLayout")) l = [] -> children ml = []).
Proof.
  unfold get_or_add_manualLayout. rewrite find_filter_tag.
  destruct (List.filter (has_tag (c_ "manualLayout")) l) as [| ml rest] eqn:E;
    cbn [head].
  - rewrite filter_insert_element_before_fresh by (exact E || reflexivity).
    eexists _, _. split; reflexivity.
  - rewrite E. exists ml, rest. split; [reflexivity | discriminate].
Qed.

Lemma get_or_add_present (l : list element) (ml : element) (rest : list element) :
  List.filter (has_tag (c_ "manualLayout")) l = ml :: rest ->
  get_or_add_manualLayout l = l.
Proof.
  intros H. unfold get_or_add_manualLayout. rewrite find_filter_tag, H.
  reflexivity.
Qed.

Lemma pin_layout_tag (e : element) : tag (pin_layout e) = tag e.
Proof. reflexivity. Qed.

Lemma pin_layout_twice (e : element) : pin_layout (pin_layout e) = pin_layout e.
Proof.
  unfold pin_layout. simpl. f_equal.
  destruct (has_manualLayout (children e)) as (ml & rest & H & _).
  rewrite (get_or_add_present _ (pin ml) rest).
  - rewrite update_first_twice by apply pin_tag.
    apply update_first_ext, pin_twice.
  - rewrite filter_tag_update_first by apply pin_tag. now rewrite H.
Qed.

(** The manual layout of the layout that [pin_layout] returns. *)
Lemma pin_layout_pins (e : element) :
  exists kept rest,
    map children
      (List.filter (has_tag (c_ "manualLayout")) (children (pin_layout e)))
      = (kept ++ full_area) :: rest /\
    Forall (fun x => tag x ∉ layout_tags) kept /\
    (children e = [] -> kept = []).
Proof.
  unfold pin_layout. simpl.
  destruct (has_manualLayout (children e)) as (ml & rest & H & Hnew).
  rewrite filter_tag_update_first by apply pin_tag. rewrite H. simpl.
  exists (remove_all layout_tags (children ml)), (map children rest).
  split; [reflexivity |]. split; [apply remove_all_removes |].
  intros He. rewrite He in Hnew. now rewrite Hnew.
Qed.

Lemma plot_area_cases (l : list element) :
  (exists e, pac_layout l = [e] /\
             _plot_area_only l = update_first (c_ "layout") pin_layout l) \/
  (length (pac_layout l) <> 1 /\ _plot_area_only l = l ++ [new_layout]).
Proof.
  unfold _plot_area_only.
  destruct (pac_layout l) as [| e [| e' rest]] eqn:E.
  - right. split; [simpl; lia | reflexivity].
  - left. exists e. split; reflexivity.
  - right. split; [simpl; lia | reflexivity].
Qed.

Lemma pac_layout_app (l k : list element) :
  pac_layout (l ++ k) = pac_layout l ++ pac_layout k.
Proof. apply List.filter_app. Qed.

End PlotAreaFacts.

(** X14: after the last block of [_plot_area_only], the children of the
    plot area other than [c:layout] elements are the same, in the same
    order; a plot area with exactly one [c:layout] keeps that one, any
    other plot area gains one at its end; and some [c:layout] holds a
    manual layout whose children end with the seven settings that pin the
    plot to the whole chart area, none of its other children being one of
    these settings. *)
Theorem plot_area_is_pinned_to_the_chart :
  forall l : list Border.element,
    let l' := PlotArea._plot_area_only l in
    List.filter (fun e => negb (Border.has_tag (PlotArea.c_ "layout") e)) l' =
    List.filter (fun e => negb (Border.has_tag (PlotArea.c_ "layout") e)) l /\
    length (PlotArea.pac_layout l') =
      (if decide (length (PlotArea.pac_layout l) = 1) then 1
       else S (length (PlotArea.pac_layout l))) /\
    exists kept,
      (kept ++ PlotArea.full_area) ∈ PlotArea.manual_layouts l' /\
      Forall (fun x => Border.tag x ∉ PlotArea.layout_tags) kept.
Proof.
  intros l l'. unfold l'.
  destruct (plot_area_cases l) as [(e & He & ->) | [Hn ->]].
  - split; [| split].
    + apply filter_other_update_first; [| apply pin_layout_tag].
      intros x Hx. now rewrite Hx.
    + unfold PlotArea.pac_layout in *.
      rewrite filter_tag_update_first by apply pin_layout_tag.
      rewrite He. reflexivity.
    + unfold PlotArea.manual_layouts, PlotArea.pac_layout in *.
      rewrite filter_tag_update_first by apply pin_layout_tag.
      rewrite He. cbn [flat_map]. rewrite app_nil_r.
      destruct (pin_layout_pins e) as (kept & rest & -> & Hk & _).
      exists kept. split; [apply list_elem_of_here | exact Hk].
  - split; [| split].
    + rewrite List.filter_app. simpl. apply app_nil_r.
    + rewrite pac_layout_app, length_app. simpl.
      destruct (decide (length (PlotArea.pac_layout l) = 1)); lia.
    + exists []. split; [| constructor].
      unfold PlotArea.manual_layouts. rewrite pac_layout_app, flat_map_app.
      apply elem_of_app. right. vm_compute. apply list_elem_of_here.
Qed.

(** X15: running the last block of [_plot_area_only] again on its own
    result changes nothing exactly when the plot area had at most one
    [c:layout] to begin with; with two or more, every run appends one
    more [c:layout]. *)
Theorem plot_area_rewrite_is_idempotent :
  forall l : list Border.element,
    (PlotArea._plot_area_only (PlotArea._plot_area_only l)
       = PlotArea._plot_area_only l
     <-> length (PlotArea.pac_layout l) <= 1) /\
    (2 <= length (PlotArea.pac_layout l) ->
     PlotArea._plot_area_only (PlotArea._plot_area_only l)
       = l ++ [PlotArea.new_layout; PlotArea.new_layout]).
Proof.
  intros l.
  assert (Hone : forall k e, PlotArea.pac_layout k = [e] ->
            PlotArea._plot_area_only
              (Border.update_first (PlotArea.c_ "layout") PlotArea.pin_layout k)
            = Border.update_first (PlotArea.c_ "layout") PlotArea.pin_layout k).
  { intros k e Hk. unfold PlotArea._plot_area_only, PlotArea.pac_layout in *.
    rewrite filter_tag_update_first by apply pin_layout_tag. rewrite Hk.
    rewrite update_first_twice by apply pin_layout_tag.
    apply update_first_ext, pin_layout_twice. }
  assert (Hmany : 2 <= length (PlotArea.pac_layout l) ->
            PlotArea._plot_area_only (PlotArea._plot_area_only l)
            = l ++ [PlotArea.new_layout; PlotArea.new_layout]).
  { intros H2. unfold PlotArea._plot_area_only at 2.
    destruct (PlotArea.pac_layout l) as [| a [| b rest]] eqn:E;
      [simpl in H2; lia | simpl in H2; lia |].
    unfold PlotArea._plot_area_only. rewrite pac_layout_app, E. simpl.
    now rewrite <- app_assoc. }
  split; [split |].
  - intros Heq.
    destruct (le_lt_dec (length (PlotArea.pac_layout l)) 1) as [? | Hlt];
      [assumption | exfalso].
    rewrite (Hmany Hlt) in Heq.
    unfold PlotArea._plot_area_only in Heq.
    destruct (PlotArea.pac_layout l) as [| a [| b rest]];
      [simpl in Hlt; lia | simpl in Hlt; lia |].
    apply (f_equal length) in Heq. rewrite !length_app in Heq.
    simpl in Heq. lia.
  - intros Hle.
    destruct (plot_area_cases l) as [(e & He & ->) | [Hn ->]].
    + now apply (Hone l e).
    + assert (Hnil : PlotArea.pac_layout l = []).
      { destruct (PlotArea.pac_layout l) as [| a [| b rest]];
          [reflexivity | simpl in Hn; lia | simpl in Hle; lia]. }
      unfold PlotArea._plot_area_only. rewrite pac_layout_app, Hnil. simpl.
      rewrite update_first_app_absent by exact Hnil.
      apply (f_equal (app l)). vm_compute. reflexivity.
  - exact Hmany.
Qed.

Lemma plot_area_idempotent_witness :
  PlotArea._plot_area_only (PlotArea._plot_area_only PlotArea.two_layouts)
    = PlotArea.two_layouts ++ [PlotArea.new_layout; PlotArea.new_layout].
Proof.
  apply (proj2 (plot_area_rewrite_is_idempotent PlotArea.two_layouts)).
  vm_compute. lia.
Defined.

(** ** Fill colours given as dictionaries *)

Section FillFacts.
Import Spark Border Fill.

Lemma set_attr_twice (k v w : string) (a : list (string * string)) :
  set_attr k w (set_attr k v a) = set_attr k w a.
Proof.
  induction a as [| [k' v'] a IH]; simpl.
  - now rewrite String.eqb_refl.
  - destruct (String.eqb k k') eqn:E; simpl.
    + now rewrite String.eqb_refl.
    + rewrite E. now rewrite IH.
Qed.

Lemma assoc_set_attr (k v : string) (a : list (string * string)) :
  assoc k (set_attr k v a) = Some v.
Proof.
  induction a as [| [k' v'] a IH]; simpl.
  - now rewrite String.eqb_refl.
  - destruct (String.eqb k k') eqn:E; simpl.
    + now rewrite String.eqb_refl.
    + now rewrite E.
Qed.

Lemma find_is_Some_filter (t : string) (l : list element) (e : element) :
  find t l = Some e -> List.filter (has_tag t) l <> [].
Proof.
  unfold find. induction l as [| x l IH]; simpl; [discriminate |].
  destruct (has_tag t x); [discriminate | exact IH].
Qed.

Lemma find_none_filter (t : string) (l : list element) :
  find t l = None -> List.filter (has_tag t) l = [].
Proof.
  unfold find. induction l as [| x l IH]; simpl; [reflexivity |].
  destruct (has_tag t x); [discriminate | exact IH].
Qed.

(** The colour children after two assignments are those after the
    second one alone. *)
Lemma set_srgbClr_twice (a b : RGBColor) (ch : list element) :
  set_srgbClr b (set_srgbClr a ch) = set_srgbClr b ch.
Proof.
  unfold set_srgbClr at 2 3.
  destruct (find (a_ "srgbClr") ch) as [e |] eqn:E.
  - unfold set_srgbClr. rewrite find_update_first_same by reflexivity.
    rewrite E. cbn [fmap option_fmap option_map].
    induction ch as [| x ch IH]; [reflexivity |].
    unfold find in E. simpl in E |- *.
    destruct (has_tag (a_ "srgbClr") x) eqn:Hx; simpl.
    + unfold has_tag in *. simpl. rewrite Hx.
      now rewrite set_attr_twice.
    + rewrite Hx. f_equal. now apply IH.
  - unfold set_srgbClr. rewrite find_app.
    rewrite find_remove_all by (vm_compute; tauto).
    unfold find at 1. simpl.
    set (kept := remove_all color_tags ch).
    assert (Hk : List.filter (has_tag (a_ "srgbClr")) kept = []).
    { apply find_none_filter. subst kept.
      apply find_remove_all. vm_compute. tauto. }
    clearbody kept. induction kept as [| x kept IH]; [reflexivity |].
    simpl in Hk |- *. destruct (has_tag (a_ "srgbClr") x); [discriminate |].
    f_equal. now apply IH.
Qed.

Lemma solid_has_solidFill (l : list element) :
  exists sf, find (a_ "solidFill") (solid l) = Some sf /\
             (find (a_ "solidFill") l = None -> children sf = []).
Proof.
  unfold solid, get_or_change_to.
  destruct (find (a_ "solidFill") l) as [sf |] eqn:E.
  - exists sf. split; [exact E | discriminate].
  - eexists. split.
    + apply find_insert_element_before_fresh; [reflexivity |].
      apply find_remove_all. vm_compute. tauto.
    + reflexivity.
Qed.

Lemma solid_when_found (l : list element) (sf : element) :
  find (a_ "solidFill") l = Some sf -> solid l = l.
Proof. intros H. unfold solid, get_or_change_to. now rewrite H. Qed.

(** Two children with different tags, both accepted by [P], make two
    children accepted by [P]. *)
Lemma filter_found_once (P : element -> bool) (t : string) (l : list element)
    (e : element) :
  (forall x, has_tag t x = true -> P x = true) ->
  find t l = Some e -> 1 <= length (List.filter P l).
Proof.
  intros HP. unfold find. induction l as [| x l IH]; simpl; [discriminate |].
  destruct (has_tag t x) eqn:Hx.
  - intros _. rewrite (HP x Hx). simpl. lia.
  - intros H. destruct (P x); simpl; [lia | now apply IH].
Qed.

Lemma two_found (P : element -> bool) (t1 t2 : string) (l : list element)
    (e1 e2 : element) :
  t1 <> t2 ->
  (forall x, has_tag t1 x = true -> P x = true) ->
  (forall x, has_tag t2 x = true -> P x = true) ->
  find t1 l = Some e1 -> find t2 l = Some e2 ->
  2 <= length (List.filter P l).
Proof.
  intros Hne H1 H2. unfold find.
  induction l as [| x l IH]; simpl; [discriminate |].
  destruct (has_tag t1 x) eqn:Hx1.
  - intros _. assert (has_tag t2 x = false) as ->.
    { apply has_tag_true in Hx1. apply has_tag_false. congruence. }
    intros Hf2. rewrite (H1 x Hx1). simpl.
    pose proof (filter_found_once P t2 l e2 H2 Hf2). lia.
  - destruct (has_tag t2 x) eqn:Hx2.
    + intros Hf1 _. rewrite (H2 x Hx2). simpl.
      pose proof (filter_found_once P t1 l e1 H1 Hf1). lia.
    + intros Hf1 Hf2. specialize (IH Hf1 Hf2).
      destruct (P x); simpl; lia.
Qed.

Lemma tag_is_fill (t : string) :
  In t fill_tags -> forall x, has_tag t x = true -> is_fill x = true.
Proof. intros Hin x Hx. apply existsb_exists. now exists t. Qed.

Lemma tag_is_color (t : string) :
  In t color_tags -> forall x, has_tag t x = true -> is_color x = true.
Proof. intros Hin x Hx. apply existsb_exists. now exists t. Qed.

Lemma two_fills (l : list element) (e1 e2 : element) :
  find (a_ "noFill") l = Some e1 -> find (a_ "solidFill") l = Some e2 ->
  2 <= length (List.filter is_fill l).
Proof.
  apply two_found.
  - vm_compute. discriminate.
  - apply tag_is_fill. vm_compute. tauto.
  - apply tag_is_fill. vm_compute. tauto.
Qed.

Lemma solid_is_solid (l : list element) :
  one_fill l -> fill_type (solid l) = Some SOLID.
Proof.
  intros Hone. unfold solid, get_or_change_to.
  destruct (find (a_ "solidFill") l) as [sf |] eqn:E.
  - apply (fill_type_solid l sf); [| exact E].
    destruct (find (a_ "noFill") l) as [nf |] eqn:En; [| reflexivity].
    pose proof (two_fills l nf sf En E). unfold one_fill in Hone. lia.
  - eapply fill_type_solid.
    + rewrite find_insert_element_before_other by reflexivity.
      apply find_remove_all. vm_compute. tauto.
    + apply find_insert_element_before_fresh; [reflexivity |].
      apply find_remove_all. vm_compute. tauto.
Qed.

Lemma fill_type_set_fore_color (c : RGBColor) (l : list element) :
  fill_type l = Some SOLID -> fill_type (set_fore_color_rgb c l) = Some SOLID.
Proof.
  intros H. pose proof (solid_fill_has_no_noFill l H) as Hno.
  unfold fill_type, fill_tags in H. cbn [map first_child_found_in] in H.
  rewrite Hno in H.
  destruct (find (a_ "solidFill") l) as [sf |] eqn:Hso.
  - eapply fill_type_solid.
    + unfold set_fore_color_rgb.
      rewrite find_update_first_other by reflexivity.
      rewrite Hno. reflexivity.
    + unfold set_fore_color_rgb.
      rewrite find_update_first_same by reflexivity.
      rewrite Hso. reflexivity.
  - exfalso.
    destruct (find (a_ "gradFill") l) as [e |] eqn:E1.
    { apply find_has_tag, has_tag_true in E1. cbn [mbind option_bind] in H.
      unfold has_tag in H. rewrite E1 in H. vm_compute in H. discriminate. }
    destruct (find (a_ "blipFill") l) as [e |] eqn:E2.
    { apply find_has_tag, has_tag_true in E2. cbn [mbind option_bind] in H.
      unfold has_tag in H. rewrite E2 in H. vm_compute in H. discriminate. }
    destruct (find (a_ "pattFill") l) as [e |] eqn:E3.
    { apply find_has_tag, has_tag_true in E3. cbn [mbind option_bind] in H.
      unfold has_tag in H. rewrite E3 in H. vm_compute in H. discriminate. }
    destruct (find (a_ "grpFill") l) as [e |] eqn:E4.
    { apply find_has_tag, has_tag_true in E4. cbn [mbind option_bind] in H.
      unfold has_tag in H. rewrite E4 in H. vm_compute in H. discriminate. }
    discriminate H.
Qed.

Lemma solid_twice (l : list element) : solid (solid l) = solid l.
Proof.
  destruct (solid_has_solidFill l) as (sf & Hsf & _).
  now apply (solid_when_found _ sf).
Qed.

Lemma update_first_compose (t : string) (f g : element -> element)
    (l : list element) :
  (forall e, tag (f e) = tag e) ->
  update_first t g (update_first t f l) = update_first t (fun e => g (f e)) l.
Proof.
  intros Hf. induction l as [| x l IH]; [reflexivity |]. simpl.
  destruct (has_tag t x) eqn:E; simpl.
  - unfold has_tag in *. rewrite Hf, E. reflexivity.
  - rewrite E. now rewrite IH.
Qed.

Lemma set_fore_color_twice (a b : RGBColor) (l : list element) :
  set_fore_color_rgb b (set_fore_color_rgb a l) = set_fore_color_rgb b l.
Proof.
  unfold set_fore_color_rgb.
  rewrite update_first_compose by reflexivity.
  apply update_first_ext. intros e. simpl. f_equal.
  apply set_srgbClr_twice.
Qed.

Lemma solid_after_set_fore_color (a : RGBColor) (l : list element) :
  solid (set_fore_color_rgb a (solid l)) = set_fore_color_rgb a (solid l).
Proof.
  destruct (solid_has_solidFill l) as (sf & Hsf & _).
  eapply solid_when_found. unfold set_fore_color_rgb.
  rewrite find_update_first_same by reflexivity.
  rewrite Hsf. reflexivity.
Qed.

Lemma rgb_roundtrip_lt (r g b : nat) :
  r < 256 -> g < 256 -> b < 256 ->
  rgb_from_string (rgb_to_string (RGB r g b)) = Some (RGB r g b).
Proof.
  intros Hr Hg Hb.
  change (rgb_to_string (RGB r g b))
    with (String (hex_char (r / 16)) (String (hex_char (r mod 16))
           (String (hex_char (g / 16)) (String (hex_char (g mod 16))
              (String (hex_char (b / 16)) (String (hex_char (b mod 16))
                 EmptyString)))))).
  unfold rgb_from_string.
  now rewrite !parse_format_byte.
Qed.

(** The colour element that [fore_color] finds after an assignment. *)
Lemma first_color_after_set (col : RGBColor) (ch : list element) :
  length (List.filter is_color ch) <= 1 ->
  exists e,
    first_child_found_in color_tags (set_srgbClr col ch) = Some e /\
    has_tag (a_ "srgbClr") e = true /\
    assoc "val" (attrib e) = Some (rgb_to_string col).
Proof.
  intros Hone. unfold color_tags. cbn [map first_child_found_in].
  unfold set_srgbClr.
  destruct (find (a_ "srgbClr") ch) as [e0 |] eqn:E.
  - assert (Hno : find (a_ "scrgbClr") ch = None).
    { destruct (find (a_ "scrgbClr") ch) as [e1 |] eqn:E1; [| reflexivity].
      assert (2 <= length (List.filter is_color ch)); [| lia].
      apply (two_found is_color (a_ "scrgbClr") (a_ "srgbClr") ch e1 e0);
        try assumption.
      - vm_compute. discriminate.
      - apply tag_is_color. vm_compute. tauto.
      - apply tag_is_color. vm_compute. tauto. }
    rewrite find_update_first_other by reflexivity. rewrite Hno.
    cbn [fmap option_fmap option_map].
    rewrite find_update_first_same by reflexivity. rewrite E.
    cbn [fmap option_fmap option_map].
    eexists. split; [reflexivity |]. split.
    + apply find_has_tag in E. exact E.
    + simpl. apply assoc_set_attr.
  - rewrite !find_app.
    rewrite !find_remove_all by (vm_compute; tauto).
    eexists. split; [reflexivity |]. split; reflexivity.
Qed.

Lemma fore_color_after_set (col : RGBColor) (l : list element) (sf : element) :
  red col < 256 -> green col < 256 -> blue col < 256 ->
  find (a_ "solidFill") l = Some sf ->
  length (List.filter is_color (children sf)) <= 1 ->
  fore_color_rgb (set_fore_color_rgb col l) = Some col.
Proof.
  intros Hr Hg Hb Hsf Hone. unfold fore_color_rgb, set_fore_color_rgb.
  rewrite find_update_first_same by reflexivity. rewrite Hsf.
  cbn [fmap option_fmap option_map mbind option_bind children].
  destruct (first_color_after_set col (children sf) Hone) as (e & -> & He & Hv).
  cbn [mbind option_bind]. rewrite He, Hv. cbn [mbind option_bind].
  destruct col as [r g b]. now apply rgb_roundtrip_lt.
Qed.

Lemma not_fill_untouched (l : list element) :
  List.filter (fun e => negb (is_fill e)) l = List.filter (untouched []) l.
Proof.
  apply List.filter_ext. intros e. unfold untouched. simpl.
  now rewrite andb_true_r.
Qed.

Lemma RGBColor_new_Some (r g b : Z) :
  (0 <= r <= 255)%Z -> (0 <= g <= 255)%Z -> (0 <= b <= 255)%Z ->
  RGBColor_new r g b = Some (RGB (Z.to_nat r) (Z.to_nat g) (Z.to_nat b)).
Proof.
  intros Hr Hg Hb. unfold RGBColor_new. simpl.
  repeat match goal with
         | |- context [(?x <=? ?y)%Z] =>
             destruct (Z.leb_spec x y); try lia
         end.
  reflexivity.
Qed.

Lemma RGBColor_new_inv (r g b : Z) (c : RGBColor) :
  RGBColor_new r g b = Some c ->
  (0 <= r <= 255)%Z /\ (0 <= g <= 255)%Z /\ (0 <= b <= 255)%Z /\
  c = RGB (Z.to_nat r) (Z.to_nat g) (Z.to_nat b).
Proof.
  unfold RGBColor_new. simpl.
  repeat match goal with
         | |- context [(?x <=? ?y)%Z] =>
             destruct (Z.leb_spec x y); simpl; try discriminate
         end.
  intros Heq. injection Heq as <-. repeat split; lia.
Qed.

End FillFacts.

(** X16: [_shape_fill] on a cell with at most one fill element and at
    most one colour in its solid fill.  Whether it returns or raises, the
    cell is left with a solid fill, and its text body, the attributes of
    [a:tcPr] and the children of [a:tcPr] that are not fill elements are
    unchanged.  It returns exactly when the dictionary holds ['r'], ['g']
    and ['b'] with values from 0 to 255, and then the colour read back
    from the cell is the one given. *)
Theorem shape_fill_reads_back :
  forall (c : Border.cell) (d : gmap string Z),
    Fill.one_fill (Border.tcPr c) -> Fill.one_color (Border.tcPr c) ->
    let r := Fill._shape_fill c d in
    Border.fill_type (Border.tcPr r.1) = Some Border.SOLID /\
    Border.txBody r.1 = Border.txBody c /\
    Border.tcPr_attrib r.1 = Border.tcPr_attrib c /\
    List.filter (fun e => negb (Border.is_fill e)) (Border.tcPr r.1) =
    List.filter (fun e => negb (Border.is_fill e)) (Border.tcPr c) /\
    (r.2 = None <->
     exists red green blue,
       d !! "r"%string = Some red /\ d !! "g"%string = Some green /\
       d !! "b"%string = Some blue /\
       (0 <= red <= 255)%Z /\ (0 <= green <= 255)%Z /\ (0 <= blue <= 255)%Z) /\
    (forall red green blue,
        d !! "r"%string = Some red -> d !! "g"%string = Some green ->
        d !! "b"%string = Some blue -> r.2 = None ->
        Border.fore_color_rgb (Border.tcPr r.1)
        = Some (Spark.RGB (Z.to_nat red) (Z.to_nat green) (Z.to_nat blue))).
Proof.
  intros c d Hfill Hcolor r.
  pose proof (solid_is_solid _ Hfill) as Hsolid.
  assert (Hframe : forall col,
    List.filter (fun e => negb (Border.is_fill e))
      (Border.set_fore_color_rgb col (Border.solid (Border.tcPr c))) =
    List.filter (fun e => negb (Border.is_fill e)) (Border.tcPr c)).
  { intros col. rewrite !not_fill_untouched.
    rewrite filter_set_fore_color_rgb.
    apply filter_get_or_change_to. vm_compute. tauto. }
  assert (Hframe0 :
    List.filter (fun e => negb (Border.is_fill e)) (Border.solid (Border.tcPr c)) =
    List.filter (fun e => negb (Border.is_fill e)) (Border.tcPr c)).
  { rewrite !not_fill_untouched.
    apply filter_get_or_change_to. vm_compute. tauto. }
  subst r. unfold Fill._shape_fill, Fill.color_of.
  destruct (d !! "r"%string) as [red |] eqn:Er;
    [| simpl; repeat split; try assumption;
       [discriminate | intros (? & ? & ? & ? & _); discriminate
       | intros; discriminate]].
  destruct (d !! "g"%string) as [green |] eqn:Eg;
    [| simpl; repeat split; try assumption;
       [discriminate | intros (? & ? & ? & _ & ? & _); discriminate
       | intros; discriminate]].
  destruct (d !! "b"%string) as [blue |] eqn:Eb;
    [| simpl; repeat split; try assumption;
       [discriminate | intros (? & ? & ? & _ & _ & ? & _); discriminate
       | intros; discriminate]].
  destruct (Fill.RGBColor_new red green blue) as [col |] eqn:Ec.
  - apply RGBColor_new_inv in Ec as (Hr & Hg & Hb & ->).
    unfold Border._shape_fill. simpl.
    split; [now apply fill_type_set_fore_color |].
    split; [reflexivity |]. split; [reflexivity |].
    split; [apply Hframe |]. split.
    + split; [| reflexivity]. intros _. exists red, green, blue. auto 10.
    + intros r0 g0 b0 H1 H2 H3 _. injection H1 as <-. injection H2 as <-.
      injection H3 as <-.
      destruct (solid_has_solidFill (Border.tcPr c)) as (sf & Hsf & Hnew).
      apply (fore_color_after_set _ _ sf); simpl; try lia; try exact Hsf.
      destruct (Border.find (Border.a_ "solidFill") (Border.tcPr c))
        as [sf0 |] eqn:E0.
      * rewrite (solid_when_found _ sf0 E0) in Hsf.
        rewrite E0 in Hsf. injection Hsf as <-. now apply Hcolor.
      * rewrite Hnew by reflexivity. simpl. lia.
  - simpl. split; [exact Hsolid |]. split; [reflexivity |].
    split; [reflexivity |]. split; [exact Hframe0 |]. split.
    + split; [discriminate |].
      intros (r0 & g0 & b0 & H1 & H2 & H3 & Hr & Hg & Hb).
      injection H1 as <-. injection H2 as <-. injection H3 as <-.
      rewrite RGBColor_new_Some in Ec by assumption. discriminate.
    + intros; discriminate.
Qed.

Lemma shape_fill_witness :
  let r := Fill._shape_fill Border.bordered_cell Fill.primary_color in
  r.2 = None /\
  Border.fill_type (Border.tcPr r.1) = Some Border.SOLID /\
  Border.fore_color_rgb (Border.tcPr r.1) = Some (Spark.RGB 7 24 45).
Proof.
  cbn zeta.
  destruct (shape_fill_reads_back Border.bordered_cell Fill.primary_color)
    as (Hs & _ & _ & _ & Hret & Hback).
  - unfold Fill.one_fill. vm_compute. lia.
  - unfold Fill.one_color. intros sf Hsf. vm_compute in Hsf.
    injection Hsf as <-. vm_compute. lia.
  - split; [reflexivity |]. split; [exact Hs |].
    apply (Hback 7%Z 24%Z 45%Z); reflexivity.
Defined.

(** X17: a call of [_shape_fill] that returns decides the fill alone:
    the cell is as if no earlier call of [_shape_fill] had been made on
    it, whether that earlier call returned or raised. *)
Theorem shape_fill_last_call_wins :
  forall (c : Border.cell) (d1 d2 : gmap string Z),
    (Fill._shape_fill c d2).2 = None ->
    Fill._shape_fill (Fill._shape_fill c d1).1 d2 = Fill._shape_fill c d2.
Proof.
  intros c d1 d2. unfold Fill._shape_fill.
  destruct (Fill.color_of d2) as [e2 | b]; [discriminate |]. intros _.
  destruct (Fill.color_of d1) as [e1 | a];
    unfold Border._shape_fill; simpl; f_equal; f_equal.
  - now rewrite solid_twice.
  - rewrite solid_after_set_fore_color. apply set_fore_color_twice.
Qed.

Lemma shape_fill_last_call_witness :
  Fill._shape_fill (Fill._shape_fill Border.bordered_cell Fill.white_color).1
    Fill.primary_color
  = Fill._shape_fill Border.bordered_cell Fill.primary_color.
Proof.
  apply (shape_fill_last_call_wins Border.bordered_cell Fill.white_color
           Fill.primary_color).
  reflexivity.
Defined.

(** ** Paragraphs and runs of a text frame *)

Section TextFacts.
Import Spark Align Fill Text.

Variable font_size : Z.
Variable font_color : gmap string Z.
Variable bold_ : bool.
Variables horizontal_alignment vertical_alignment : string.
Variable bulleted : bool.
Variable run_bold : list bool.

Local Abbreviation add_runs := (add_runs font_size font_color run_bold).
Local Abbreviation add_paragraph :=
  (add_paragraph font_size font_color bold_ horizontal_alignment bulleted
     run_bold).
Local Abbreviation add_paragraphs :=
  (add_paragraphs font_size font_color bold_ horizontal_alignment
     vertical_alignment bulleted run_bold).

Lemma vertical_twice (v : string) (a : option MSO_VERTICAL_ANCHOR) :
  vertical v (vertical v a) = vertical v a.
Proof.
  unfold vertical, _vertical_alignment.
  destruct (String.eqb v "top"); [reflexivity |].
  destruct (String.eqb v "middle"); [reflexivity |].
  destruct (String.eqb v "bottom"); reflexivity.
Qed.

Lemma add_runs_inr (sub_lines : list string) (k : nat) (rs : list run) :
  add_runs sub_lines k = inr rs ->
  map run_text rs = sub_lines /\
  map bold rs = take (length sub_lines) (drop k run_bold) /\
  Forall (fun r => size r = font_size /\ color_of font_color = inr (color r)) rs.
Proof.
  revert k rs. induction sub_lines as [| s rest IH]; intros k rs; simpl.
  - intros H. injection H as <-. repeat split; constructor.
  - destruct (run_bold !! k) as [b |] eqn:Eb; [| discriminate].
    unfold new_run. destruct (color_of font_color) as [e | c] eqn:Ec;
      [discriminate |].
    destruct (add_runs rest (S k)) as [e | rs'] eqn:Er; [discriminate |].
    intros H. injection H as <-.
    destruct (IH (S k) rs' Er) as (H1 & H2 & H4). simpl.
    repeat split.
    + now rewrite H1.
    + rewrite H2. rewrite (drop_S _ _ _ Eb). reflexivity.
    + constructor; [split; reflexivity | exact H4].
Qed.



Lemma add_paragraph_inr (l : line) (p : paragraph) :
  add_paragraph l = inr p ->
  rendered font_size font_color bold_ horizontal_alignment bulleted run_bold l p.
Proof.
  unfold Text.add_paragraph, rendered. destruct l as [s | sub_lines].
  - unfold new_run. destruct (color_of font_color) as [e | c] eqn:Ec;
      [discriminate |].
    intros H. injection H as <-. simpl. repeat split.
    repeat constructor.
  - destruct (add_runs sub_lines 0) as [e | rs] eqn:Er; [discriminate |].
    intros H. injection H as <-. simpl.
    destruct (add_runs_inr _ _ _ Er) as (H1 & H2 & H4).
    rewrite drop_0 in H2. repeat split; assumption.
Qed.


Lemma add_paragraphs_inr (text : list line) (a a' : option MSO_VERTICAL_ANCHOR)
    (ps : list paragraph) :
  add_paragraphs text a = inr (ps, a') ->
  Forall2 (rendered font_size font_color bold_ horizontal_alignment bulleted
             run_bold) text ps /\
  a' = match text with [] => a | _ => vertical vertical_alignment a end.
Proof.
  revert a ps. induction text as [| l rest IH]; intros a ps; simpl.
  - intros H. injection H as <- <-. split; [constructor | reflexivity].
  - destruct (add_paragraph l) as [e | p] eqn:Ep; [discriminate |].
    destruct (add_paragraphs rest (vertical vertical_alignment a))
      as [e | [ps' a'']] eqn:Er; [discriminate |].
    intros H. injection H as <- <-.
    destruct (IH _ _ Er) as [H1 H2]. split.
    + constructor; [now apply add_paragraph_inr | exact H1].
    + rewrite H2. destruct rest; [reflexivity | apply vertical_twice].
Qed.


End TextFacts.

(** X18: when [_paragraphs] returns, the text frame has lost its first
    paragraph and gained, after the ones it keeps, one paragraph per
    entry of [text], in order: the runs of a paragraph carry the strings
    of its entry, the font size and the colour of the dictionary; the run
    of a string is bold as [bold] says and run [i] of a list as
    [run_bold[i]] says; every new paragraph is bulleted as [bulleted]
    says and aligned as [_horizontal_alignment] sets it.  Word wrap is
    on, and the anchor of the frame is assigned only when [text] is not
    empty. *)
Theorem paragraphs_one_per_line :
  forall (font_size : Z) (font_color : gmap string Z) (bold_ : bool)
         (h v : string) (bulleted : bool) (run_bold : list bool)
         (tf tf' : Text.text_frame) (text : list Text.line),
    Text._paragraphs font_size font_color bold_ h v bulleted run_bold tf text
      = inr tf' ->
    exists new,
      Text.paragraphs tf' = tail (Text.paragraphs tf) ++ new /\
      Forall2 (Text.rendered font_size font_color bold_ h bulleted run_bold)
              text new /\
      Text.word_wrap tf' = Some true /\
      Text.anchor tf' =
        match text with
        | [] => Text.anchor tf
        | _ => Text.vertical v (Text.anchor tf)
        end.
Proof.
  intros font_size font_color bold_ h v bulleted run_bold tf tf' text.
  unfold Text._paragraphs.
  destruct (Text.paragraphs tf) as [| first kept]; [discriminate |].
  destruct (Text.add_paragraphs _ _ _ _ _ _ _ text (Text.anchor tf))
    as [e | [ps a]] eqn:E; [discriminate |].
  intros H. injection H as <-. simpl.
  destruct (add_paragraphs_inr _ _ _ _ _ _ _ _ _ _ _ E) as [H1 H2].
  exists ps. repeat split; assumption.
Qed.

Lemma paragraphs_witness :
  exists tf',
    Text._paragraphs 12 Fill.primary_color false "left" "middle" true
      Text.default_run_bold Text.new_frame
      [Text.Runs ["Segment: "; "Consumer"]; Text.Plain "in the last 3 years"]%string
    = inr tf' /\
    length (Text.paragraphs tf') = 2.
Proof.
  eexists. split; [vm_compute; reflexivity |].
  destruct (paragraphs_one_per_line 12 Fill.primary_color false "left" "middle"
              true Text.default_run_bold Text.new_frame _
              [Text.Runs ["Segment: "; "Consumer"];
               Text.Plain "in the last 3 years"]%string
              ltac:(vm_compute; reflexivity)) as (new & Hp & _).
  reflexivity.
Defined.


(** ** Series colours of the stacked column chart *)

Section ColumnFacts.
Import Num Spark Fill Column.

Lemma unique_elem (l : list string) (x : string) : x ∈ unique l <-> x ∈ l.
Proof.
  induction l as [| y l IH]; simpl; [reflexivity |].
  rewrite !elem_of_cons, <- IH. split.
  - intros [-> | H]; [now left |]. right.
    apply list_elem_of_In, filter_In in H as [H _]. now apply list_elem_of_In.
  - intros [-> | H]; [now left |].
    destruct (String.eqb_spec x y) as [-> | Hne]; [now left |]. right.
    apply list_elem_of_In, filter_In. split; [now apply list_elem_of_In |].
    apply negb_true_iff. now apply String.eqb_neq.
Qed.

Lemma NoDup_filter_list {A} (P : A -> bool) (l : list A) :
  NoDup l -> NoDup (List.filter P l).
Proof.
  induction 1 as [| x l Hx Hl IH]; simpl; [constructor |].
  destruct (P x); [| exact IH]. constructor; [| exact IH].
  intros Hin. apply Hx.
  apply list_elem_of_In, filter_In in Hin as [Hin _]. now apply list_elem_of_In.
Qed.

Lemma unique_NoDup (l : list string) : NoDup (unique l).
Proof.
  induction l as [| x l IH]; simpl; [constructor |].
  constructor; [| now apply NoDup_filter_list].
  intros Hin. apply list_elem_of_In, filter_In in Hin as [_ Hin].
  now rewrite String.eqb_refl in Hin.
Qed.

Lemma series_colors_valid (k : nat) (d : gmap string Z) :
  series_colors !! k = Some d -> exists c, color_of d = inr c.
Proof.
  destruct k as [| [| [| [| k]]]]; simpl; intros H; try discriminate;
    injection H as <-; eexists; vm_compute; reflexivity.
Qed.

Lemma format_from_inr (df : list row) (names : list string) (k : nat)
    (ss : list series) :
  format_from df k names = inr ss ->
  map name ss = names /\
  forall i s, ss !! i = Some s ->
    exists d,
      series_colors !! (k + i) = Some d /\
      color_of d = inr (legend_fill s) /\
      points s = replicate (length (unique (map category df)))
                   (legend_fill s, legend_fill s) /\
      values s = series_values df (name s).
Proof.
  revert k ss. induction names as [| n rest IH]; intros k ss; simpl.
  - intros H. injection H as <-. split; [reflexivity |].
    intros i s Hs. now rewrite lookup_nil in Hs.
  - unfold format_series.
    destruct (series_colors !! k) as [d |] eqn:Ed; [| discriminate].
    destruct (color_of d) as [e | c] eqn:Ec; [discriminate |].
    destruct (format_from df (S k) rest) as [e | ss'] eqn:Er; [discriminate |].
    intros H. injection H as <-.
    destruct (IH (S k) ss' Er) as [Hn Hs]. split; [simpl; now rewrite Hn |].
    intros [| i] s Hi; simpl in Hi.
    + injection Hi as <-. exists d. rewrite Nat.add_0_r. simpl. auto.
    + destruct (Hs i s Hi) as (d' & H1 & H2).
      exists d'. split; [| exact H2].
      now replace (k + S i) with (S k + i) by lia.
Qed.

Lemma format_from_fits (df : list row) (names : list string) (k : nat) :
  k + length names <= length series_colors ->
  exists ss, format_from df k names = inr ss.
Proof.
  revert k. induction names as [| n rest IH]; intros k Hk; simpl; [eauto |].
  cbn [length] in Hk. unfold format_series.
  destruct (lookup_lt_is_Some_2 series_colors k ltac:(lia)) as [d Hd].
  rewrite Hd. destruct (series_colors_valid k d Hd) as [c ->].
  destruct (IH (S k) ltac:(lia)) as [ss ->]. eauto.
Qed.

Lemma format_from_overflow (df : list row) (names : list string) (k : nat) :
  k <= length series_colors ->
  length series_colors < k + length names ->
  format_from df k names = inl IndexError.
Proof.
  revert k. induction names as [| n rest IH]; intros k Hle Hk; simpl.
  - cbn [length] in Hk. lia.
  - cbn [length] in Hk. unfold format_series.
    destruct (series_colors !! k) as [d |] eqn:Ed; [| reflexivity].
    destruct (series_colors_valid k d Ed) as [c ->].
    apply lookup_lt_Some in Ed.
    now rewrite (IH (S k) ltac:(lia) ltac:(lia)).
Qed.

End ColumnFacts.

(** X20: [column_chart] and [monthly_column_chart] give the chart one
    series per distinct value of the first column, in order of first
    appearance.  With at most four distinct values the formatting loop
    returns: series [i] has the values of its rows and colour [i] of
    [series_colors] as the fill of its legend entry and as the fill and
    the line colour of each of its points, one point per distinct
    category.  With more than four, the loop raises [IndexError] at the
    fifth series. *)
Theorem column_chart_has_four_colours :
  forall df : list Column.row,
    let names := Column.unique (map Column.group df) in
    NoDup names /\
    (forall x, x ∈ names <-> exists r, r ∈ df /\ Column.group r = x) /\
    (length names <= 4 ->
     exists ss,
       Column.column_chart df = inr ss /\
       map Column.name ss = names /\
       forall i s, ss !! i = Some s ->
         exists d,
           Column.series_colors !! i = Some d /\
           Fill.color_of d = inr (Column.legend_fill s) /\
           Column.points s =
             replicate (length (Column.unique (map Column.category df)))
               (Column.legend_fill s, Column.legend_fill s) /\
           Column.values s = Column.series_values df (Column.name s)) /\
    (4 < length names -> Column.column_chart df = inl Column.IndexError).
Proof.
  intros df names. subst names. split; [apply unique_NoDup |]. split; [| split].
  - intros x. rewrite unique_elem. rewrite list_elem_of_fmap. split.
    + intros (r & -> & Hr). eauto.
    + intros (r & Hr & <-). eauto.
  - intros Hlen. unfold Column.column_chart.
    destruct (format_from_fits df (Column.unique (map Column.group df)) 0)
      as [ss Hss]; [simpl; lia |].
    exists ss. split; [exact Hss |].
    destruct (format_from_inr df _ 0 ss Hss) as [Hn Hs].
    split; [exact Hn |]. exact Hs.
  - intros Hlen. unfold Column.column_chart.
    apply format_from_overflow; simpl; lia.
Qed.

Lemma column_chart_witness :
  exists ss,
    Column.column_chart (Column.demo_rows Frame.sample_sales) = inr ss /\
    map Column.name ss = ["Northeast"; "South"; "Midwest"; "West"]%string.
Proof.
  destruct (column_chart_has_four_colours (Column.demo_rows Frame.sample_sales))
    as (_ & _ & Hok & _).
  destruct Hok as (ss & Hss & Hn & _); [vm_compute; lia |].
  exists ss. split; [exact Hss |]. rewrite Hn. vm_compute. reflexivity.
Defined.

(** ** Calendar quarters and the proportion table *)

Section PeriodFacts.
Import Num Frame Bounds Period.

(** *** Strings *)

Lemma append_cons (c : ascii) (a b : string) :
  String c a +:+ b = String c (a +:+ b).
Proof. reflexivity. Qed.


Lemma length_append (a b : string) :
  String.length (a +:+ b) = String.length a + String.length b.
Proof.
  induction a as [| c a IH]; [reflexivity |].
  rewrite append_cons. simpl. now rewrite IH.
Qed.

Lemma substring_0_length (b : string) :
  String.substring 0 (String.length b) b = b.
Proof. induction b as [| c b IH]; simpl; [reflexivity | now rewrite IH]. Qed.

Lemma substring_skip (a b : string) (n : nat) :
  String.substring (String.length a) n (a +:+ b) = String.substring 0 n b.
Proof.
  induction a as [| c a IH]; [reflexivity |].
  rewrite append_cons. simpl. exact IH.
Qed.


Lemma append_assoc (a b c : string) : (a +:+ b) +:+ c = a +:+ (b +:+ c).
Proof.
  induction a as [| x a IH]; [reflexivity |].
  rewrite !append_cons. now rewrite IH.
Qed.


Lemma last2_append (a : string) (x y : ascii) :
  last2 (a +:+ String x (String y EmptyString)) = String x (String y EmptyString).
Proof.
  unfold last2. rewrite length_append. simpl String.length.
  replace (String.length a + 2 - 2) with (String.length a) by lia.
  now rewrite substring_skip.
Qed.

Lemma endswith_two (a : string) (x y x' y' : ascii) :
  endswith (String x (String y EmptyString))
           (a +:+ String x' (String y' EmptyString))
  = String.eqb (String x' (String y' EmptyString))
               (String x (String y EmptyString)).
Proof.
  unfold endswith. rewrite length_append. simpl String.length.
  replace (String.length a + 2 - 2) with (String.length a) by lia.
  rewrite substring_skip. simpl String.substring.
  destruct (2 <=? String.length a + 2) eqn:E; [reflexivity |].
  apply Nat.leb_gt in E. lia.
Qed.

(** *** Quarters *)

Lemma months (m : Z) :
  (1 <= m <= 12)%Z ->
  In m [1; 2; 3; 4; 5; 6; 7; 8; 9; 10; 11; 12]%Z.
Proof. intros H. simpl. lia. Qed.

Lemma Order_Quarter_range (m : Z) :
  (1 <= m <= 12)%Z ->
  (1 <= Order_Quarter m <= 4)%Z /\
  (3 * Order_Quarter m - 2 <= m <= 3 * Order_Quarter m)%Z.
Proof.
  intros H. apply months in H. simpl in H.
  repeat (destruct H as [<- | H]; [vm_compute; split; split; discriminate |]).
  contradiction.
Qed.

Lemma quarters (q : Z) : (1 <= q <= 4)%Z -> In q [1; 2; 3; 4]%Z.
Proof. intros H. simpl. lia. Qed.

Lemma str_quarter (q : Z) :
  (1 <= q <= 4)%Z -> str q = String (quarter_digit q) EmptyString.
Proof.
  intros H. apply quarters in H. simpl in H.
  repeat (destruct H as [<- | H]; [vm_compute; reflexivity |]).
  contradiction.
Qed.

Lemma quarter_digit_inj (q q' : Z) :
  (1 <= q <= 4)%Z -> (1 <= q' <= 4)%Z ->
  quarter_digit q = quarter_digit q' -> q = q'.
Proof.
  intros H H'. apply quarters in H, H'. simpl in H, H'.
  repeat (destruct H as [<- | H]; [| try contradiction]);
    repeat (destruct H' as [<- | H']; [| try contradiction]);
    vm_compute; intros E; try reflexivity; discriminate E.
Qed.

(** The name of a quarter ends with ["Q"] and the digit of the quarter. *)
Lemma quarter_name (y m : Z) :
  (1 <= m <= 12)%Z ->
  Calendar_Quarter y m =
  (str y +:+ "-") +:+
  String "Q" (String (quarter_digit (Order_Quarter m)) EmptyString).
Proof.
  intros Hm. unfold Calendar_Quarter.
  rewrite (str_quarter (Order_Quarter m))
    by apply (Order_Quarter_range m Hm).
  now rewrite append_assoc.
Qed.

Lemma endswith_quarter (y0 m0 y m : Z) :
  (1 <= m0 <= 12)%Z -> (1 <= m <= 12)%Z ->
  endswith (last2 (Calendar_Quarter y0 m0)) (Calendar_Quarter y m)
  = same_quarter m0 (y, m).
Proof.
  intros H0 H. rewrite (quarter_name y0 m0 H0), (quarter_name y m H).
  rewrite last2_append, endswith_two. unfold same_quarter. cbn [snd].
  destruct (Z.eqb_spec (Order_Quarter m) (Order_Quarter m0)) as [-> | Hne].
  - apply String.eqb_refl.
  - apply String.eqb_neq. intros E. injection E as E. apply Hne.
    apply quarter_digit_inj; try assumption;
      now apply Order_Quarter_range.
Qed.

Lemma named_Forall2 (periods : list (Z * Z)) (cols : list (string * list num)) :
  map fst cols = map column_name periods ->
  Forall2 (fun p c => c.1 = column_name p) periods cols.
Proof.
  revert cols. induction periods as [| p periods IH]; intros [| c cols] H;
    simpl in H; try discriminate; constructor.
  - now injection H.
  - apply IH. now injection H.
Qed.

Lemma last_Forall2 {A B} (R : A -> B -> Prop) (l : list A) (k : list B) (a : A) :
  Forall2 R l k -> last l = Some a -> exists b, last k = Some b /\ R a b.
Proof.
  induction 1 as [| x y l k Hxy Hlk IH]; [discriminate |].
  destruct Hlk as [| x' y' l k Hxy' Hlk].
  - simpl. intros H. injection H as <-. eauto.
  - intros H. change (last (x' :: l) = Some a) in H.
    destruct (IH H) as (b & Hb & Hab). exists b. split; [exact Hb | exact Hab].
Qed.

Lemma filter_same_quarter (m0 y0 : Z) (periods : list (Z * Z))
    (cols : list (string * list num)) :
  (1 <= m0 <= 12)%Z ->
  Forall valid_period periods ->
  Forall2 (fun p c => c.1 = column_name p) periods cols ->
  filter (fun c => endswith (last2 (Calendar_Quarter y0 m0)) c.1 = true) cols
  = map snd (List.filter (fun pc => same_quarter m0 pc.1) (zip periods cols)).
Proof.
  intros H0 Hv H. induction H as [| p c periods cols Hpc H IH]; [reflexivity |].
  apply Forall_cons in Hv as [[_ Hm] Hv].
  destruct p as [y m]. simpl in Hm.
  assert (E : endswith (last2 (Calendar_Quarter y0 m0)) c.1
              = same_quarter m0 (y, m)).
  { rewrite Hpc. apply (endswith_quarter y0 m0 y m H0 Hm). }
  rewrite filter_cons. simpl zip. cbn [List.filter fst].
  destruct (decide (endswith (last2 (Calendar_Quarter y0 m0)) c.1 = true))
    as [Ht | Hf].
  - rewrite E in Ht. rewrite Ht. simpl. now rewrite (IH Hv).
  - rewrite E in Hf. apply not_true_is_false in Hf. rewrite Hf.
    now rewrite (IH Hv).
Qed.

End PeriodFacts.

(** X21: [Order_Quarter] sends the months [3q-2], [3q-1] and [3q] to
    the quarter [q] from 1 to 4; and on a frame whose period columns are
    named by [Calendar_Quarter], the selection
    [df.columns.str.endswith(df.columns[-1][-2:])] of the mix table keeps
    exactly the columns of the quarter of the last column, whatever their
    years, in their order. *)
Theorem mix_table_selects_the_last_quarter :
  forall (cols : list (string * list Num.num)) (periods : list (Z * Z))
         (y0 m0 : Z),
    map fst cols = map Period.column_name periods ->
    Forall Period.valid_period periods ->
    last periods = Some (y0, m0) ->
    Frame.same_period cols =
      map snd (List.filter (fun pc => Period.same_quarter m0 pc.1)
                 (zip periods cols)) /\
    Forall (fun p =>
              (1 <= Period.Order_Quarter p.2 <= 4)%Z /\
              (3 * Period.Order_Quarter p.2 - 2 <= p.2
               <= 3 * Period.Order_Quarter p.2)%Z) periods.
Proof.
  intros cols periods y0 m0 Hn Hv Hl. split.
  - apply named_Forall2 in Hn.
    destruct (last_Forall2 _ _ _ _ Hn Hl) as (lc & Hlc & Hname).
    unfold Frame.same_period. rewrite Hlc, Hname.
    assert (Hm0 : (1 <= m0 <= 12)%Z).
    { apply last_Some_elem_of in Hl. rewrite Forall_forall in Hv.
      apply (Hv _ Hl). }
    apply (filter_same_quarter m0 y0 periods cols Hm0 Hv Hn).
  - eapply Forall_impl; [exact Hv |]. intros p [_ Hm].
    now apply Order_Quarter_range.
Qed.

Lemma mix_table_quarter_witness :
  map fst (Frame.same_period (Frame.columns Period.four_years))
  = ["2015-Q4"; "2016-Q4"; "2017-Q4"; "2018-Q4"]%string.
Proof.
  destruct (mix_table_selects_the_last_quarter
              (Frame.columns Period.four_years) Period.four_years_periods
              2018 10) as [H _].
  - vm_compute. reflexivity.
  - unfold Period.four_years_periods, Period.valid_period. simpl.
    repeat constructor; simpl; lia.
  - reflexivity.
  - rewrite H. vm_compute. reflexivity.
Defined.

Section PropTableFacts.
Import Num Frame Bounds Period.

(** *** Years *)






(** *** The mix table of a pivot named by quarters *)












(** *** The bars of the proportion table *)

Lemma find_by_name (label : string) (cols : list (string * list num)) :
  match List.find (fun c : string * list num => String.eqb c.1 label) cols with
  | Some c => c ∈ cols /\ c.1 = label
  | None => label ∉ map fst cols
  end.
Proof.
  induction cols as [| c cols IH]; simpl.
  - apply not_elem_of_nil.
  - destruct (String.eqb_spec c.1 label) as [E | E].
    + split; [apply list_elem_of_here | exact E].
    + destruct (List.find _ cols) as [c' |].
      * destruct IH as [H1 H2]. split; [now apply list_elem_of_further | exact H2].
      * rewrite elem_of_cons. intros [H | H]; [congruence | contradiction].
Qed.




End PropTableFacts.



(** ** The width of the proportion bars *)

Section BarFacts.
Import Num Frame Bounds Period.

Lemma bar_width_inr (df : DataFrame) (i : nat) (label : string) (w : num) :
  bar_width df i label = inr w ->
  exists c x, c ∈ columns df /\ x ∈ c.2 /\ w = div x (Fin 100).
Proof.
  unfold bar_width. destruct (String.eqb label (index_name df)); [discriminate |].
  pose proof (find_by_name label (columns df)) as Hf.
  destruct (List.find _ (columns df)) as [c |]; [| discriminate].
  destruct Hf as [Hc _].
  destruct (c.2 !! i) as [x |] eqn:Ex; [| discriminate].
  intros H. injection H as <-. exists c, x.
  split; [exact Hc |]. split; [| reflexivity].
  now apply list_elem_of_lookup_2 in Ex.
Qed.

Lemma row_bars_inr (df : DataFrame) (i : nat) (ws : list num) :
  row_bars df i = inr ws ->
  Forall (fun w => exists c x, c ∈ columns df /\ x ∈ c.2 /\ w = div x (Fin 100)) ws.
Proof.
  unfold row_bars. destruct (last (columns df)) as [lc |]; [| discriminate].
  destruct (period_label lc.1 2) as [l2 |]; [| discriminate].
  destruct (bar_width df i l2) as [e | w2] eqn:E2; [discriminate |].
  destruct (period_label lc.1 1) as [l1 |]; [| discriminate].
  destruct (bar_width df i l1) as [e | w1] eqn:E1; [discriminate |].
  destruct (period_label lc.1 0) as [l0 |]; [| discriminate].
  destruct (bar_width df i l0) as [e | w0] eqn:E0; [discriminate |].
  intros H. injection H as <-.
  repeat constructor; eapply bar_width_inr; eassumption.
Qed.

Lemma all_bars_inr (df : DataFrame) (rows : list nat) (wss : list (list num)) :
  all_bars df rows = inr wss ->
  Forall (Forall (fun w => exists c x, c ∈ columns df /\ x ∈ c.2 /\
                                       w = div x (Fin 100))) wss.
Proof.
  revert wss. induction rows as [| i rows IH]; intros wss; simpl.
  - intros H. injection H as <-. constructor.
  - destruct (row_bars df i) as [e | ws] eqn:Er; [discriminate |].
    destruct (all_bars df rows) as [e | wss'] eqn:Ea; [discriminate |].
    intros H. injection H as <-. constructor.
    + now apply (row_bars_inr df i).
    + now apply IH.
Qed.

End BarFacts.

(** X25: when the sales of every quarter are not negative and no total
    is zero, every bar that [prop_table] draws fits inside its cell: its
    width [0.69*width] lies between 0 and 0.69 inch, less than the
    standard column width of 0.70 inch. *)
Theorem proportion_bars_fit_their_cells :
  forall (pv mix : Frame.DataFrame) (bars : list (list Num.num)),
    Frame.df_hc_mix pv = Some mix ->
    Period.prop_table mix = inr bars ->
    (forall n c, (n, c) ∈ Frame.columns (Frame.df_hc_all pv) ->
       Forall Bounds.nonneg c /\
       forall t, last c = Some t -> ~ Num.is_zero t) ->
    Forall (Forall (fun w =>
              exists q, Period.propbar_width w = Num.Fin q /\
                        (0 <= q)%Q /\ (q <= 0.69)%Q /\
                        (q < Table.standard_column_width)%Q)) bars.
Proof.
  intros pv mix bars Hmix Hbars Hsales.
  unfold Period.prop_table in Hbars.
  destruct (length (Frame.columns mix) <? 3); [discriminate |].
  apply all_bars_inr in Hbars.
  eapply Forall_impl; [exact Hbars |]. intros ws Hws.
  eapply Forall_impl; [exact Hws |]. intros w (c & x & Hc & Hx & ->).
  destruct c as [n m].
  destruct (mix_column_bounds pv mix n m Hmix Hc)
    as (c0 & total & Hc0 & Ht & _ & Hb).
  destruct (Hsales n c0 Hc0) as [Hnn Hnz].
  destruct (Hb Hnn (Hnz total Ht)) as [Hp _].
  rewrite Forall_forall in Hp. specialize (Hp x Hx).
  destruct x as [q | | |]; try contradiction. destruct Hp as [H0 H100].
  unfold Period.propbar_width, Table.standard_column_width. simpl.
  eexists. split; [reflexivity |].
  unfold Qdiv. change (/ 100)%Q with (1 # 100)%Q.
  repeat split; lra.
Qed.

Lemma proportion_bars_witness :
  exists mix bars,
    Frame.df_hc_mix Period.four_years = Some mix /\
    Period.prop_table mix = inr bars /\
    Forall (Forall (fun w =>
              exists q, Period.propbar_width w = Num.Fin q /\
                        (0 <= q)%Q /\ (q <= 0.69)%Q /\
                        (q < Table.standard_column_width)%Q)) bars.
Proof.
  destruct (Frame.df_hc_mix Period.four_years) as [mix |] eqn:Emix;
    [| vm_compute in Emix; discriminate Emix].
  destruct (Period.prop_table mix) as [e | bars] eqn:Ebars.
  { exfalso. vm_compute in Emix. injection Emix as <-.
    vm_compute in Ebars. discriminate Ebars. }
  exists mix, bars. split; [reflexivity |]. split; [exact Ebars |].
  apply (proportion_bars_fit_their_cells Period.four_years mix bars Emix Ebars).
  intros n c Hin. vm_compute in Hin.
  repeat (apply elem_of_cons in Hin as [Hin | Hin];
          [injection Hin as -> ->;
           split; [repeat constructor; vm_compute; discriminate
                  | intros t Ht; injection Ht as <-; vm_compute; discriminate]
          |]).
  now apply elem_of_nil in Hin.
Defined.

(** ** Colours of the growth table *)

Section GrowthFacts.
Import Num Spark Fill Growth.








End GrowthFacts.


(** ** The rows that the table builders underline *)

Section RulesFacts.
Import Rules.

Lemma filter_rows_none (P : Z -> bool) (first len : nat) :
  (forall k, first <= k < first + len -> P (Z.of_nat k) = false) ->
  List.filter P (map Z.of_nat (seq first len)) = [].
Proof.
  revert first. induction len as [| len IH]; intros first H; [reflexivity |].
  simpl. rewrite (H first) by lia. apply IH. intros k Hk. apply H. lia.
Qed.

Lemma table_rows_split (first n : nat) :
  first <= n -> 2 <= n ->
  table_rows first n =
  map Z.of_nat (seq first (n - first)) ++ [Z.of_nat n; Z.of_nat (S n)].
Proof.
  intros Hf Hn. unfold table_rows.
  replace (n + 2 - first) with ((n - first) + 2) by lia.
  rewrite seq_app, map_app. f_equal.
  replace (first + (n - first)) with n by lia. reflexivity.
Qed.

Lemma last_two_rows (P : Z -> bool) (first n : nat) :
  first <= n -> 2 <= n ->
  (forall k, first <= k < n -> P (Z.of_nat k) = false) ->
  P (Z.of_nat n) = true -> P (Z.of_nat (S n)) = true ->
  List.filter P (table_rows first n) = [Z.of_nat n; Z.of_nat (S n)].
Proof.
  intros Hf Hn Hnone H1 H2. rewrite table_rows_split by assumption.
  rewrite List.filter_app, filter_rows_none.
  - simpl. now rewrite H1, H2.
  - intros k Hk. apply Hnone. lia.
Qed.

End RulesFacts.

(** X24: on a frame of at least two rows, as every [df_hc], [df_hc_qoq]
    and [df_hc_mix] of a pivot with at least one row is, the four table
    builders call [_cell_border] on the cells of the same two table rows:
    the last row of the pivot and the Total row.  On a frame of one row
    they differ: [qoq_table] and [prop_table] also underline the header
    row, [value_table] and [trend_table] do not. *)
Theorem table_builders_underline_the_same_rows :
  (forall n : nat,
      2 <= n ->
      Rules.value_table n = [Z.of_nat n; Z.of_nat (S n)] /\
      Rules.qoq_table n = [Z.of_nat n; Z.of_nat (S n)] /\
      Rules.prop_table n = [Z.of_nat n; Z.of_nat (S n)] /\
      Rules.trend_table n = [Z.of_nat n; Z.of_nat (S n)]) /\
  (forall pv : Frame.DataFrame,
      Frame.index pv <> [] ->
      2 <= length (Frame.index (Frame.df_hc pv)) /\
      length (Frame.index (Frame.df_hc_qoq pv))
        = length (Frame.index (Frame.df_hc pv)) /\
      forall mix, Frame.df_hc_mix pv = Some mix ->
        length (Frame.index mix) = length (Frame.index (Frame.df_hc pv))) /\
  Rules.value_table 1 = [2%Z] /\ Rules.trend_table 1 = [2%Z] /\
  Rules.qoq_table 1 = [1%Z; 2%Z] /\ Rules.prop_table 1 = [1%Z; 2%Z].
Proof.
  split; [| split; [| repeat split; reflexivity]].
  - intros n Hn.
    repeat split; apply last_two_rows; try lia;
      try intros k Hk;
      repeat first
        [ rewrite andb_true_iff | rewrite orb_true_iff | rewrite negb_true_iff
        | rewrite andb_false_iff | rewrite orb_false_iff
        | rewrite negb_false_iff | rewrite Z.eqb_neq | rewrite Z.eqb_eq ];
      lia.
  - intros pv Hne. split; [| split].
    + simpl. rewrite length_app. simpl.
      destruct (Frame.index pv); [congruence | simpl; lia].
    + reflexivity.
    + intros mix Hmix. unfold Frame.df_hc_mix, Frame.mix_table in Hmix.
      destruct (mapM _ _) as [[| c cols] |]; try discriminate.
      simpl in Hmix. injection Hmix as <-. reflexivity.
Qed.
